(** * The dashboard client of the email agent (web/script.js)

    A shallow embedding of the browser script and the properties its
    specification states.  The script is presentation glue over a REST
    interface: it polls a status endpoint, toggles the agent, and renders
    emails and logs into the page.

    Layout of the development:
    - JS values: what [JSON.parse] yields, plus [undefined], with the
      conversions the language applies to them;
    - pure helpers: [getPriorityClass], [formatUptime] and the two row
      templates;
    - page and effects: the elements of the page, the script's own state,
      the requests, timers and console lines it produces, threaded through
      a state and exception monad;
    - operations: the functions of the script, an asynchronous function
      being split at its [await];
    - events: the event loop as a transition system;
    - the definitions the properties are stated with, and a sample page;
    - the properties, and their instances on the sample page.

    Two things lie outside the script and are parameters: the page it runs
    over (index.html), a list of elements, and the runtime's conversions
    between doubles and text ([Runtime]). *)

From Stdlib Require Import ZArith QArith Qround String Ascii List Bool Lia DecimalString.
From stdpp Require Import base list strings.

Local Open Scope string_scope.
Local Open Scope list_scope.
#[local] Set Warnings "-register-all,-clear-no-such-hyp".

(** ** JS values *)

(** A number: a double is [NaN], an infinity, or a rational.  The two zeros
    are not told apart: the script never divides by a variable nor inspects a
    sign, and both zeros are falsy, compare alike and print as [0]. *)
Inductive number :=
| NaN
| Infinity (negative : bool)
| Fin (q : Q).

(** What [JSON.parse] returns, and [undefined] for an absent property.  An
    object keeps its members in source order, duplicates included.  A string
    is a sequence of code units, one [ascii] each, which holds the code units
    below 256; the script never looks inside a code unit, and [substring]
    counts them. *)
Inductive value :=
| Undefined
| Null
| Bool (b : bool)
| Num (n : number)
| Str (s : string)
| Arr (elements : list value)
| Obj (members : list (string * value)).

(** The exceptions that can arise: a [TypeError] from the language, a
    [SyntaxError] from [Response.json], a rejected [fetch]. *)
Inductive error :=
| TypeError
| SyntaxError
| NetworkError.

Inductive result (A : Type) :=
| Ok (a : A)
| Throw (e : error).
Arguments Ok {A} a.
Arguments Throw {A} e.

#[global] Instance result_ret : MRet result := fun A a => Ok a.
#[global] Instance result_bind : MBind result := fun A B f m =>
  match m with
  | Ok a => f a
  | Throw e => Throw e
  end.

Definition Int (z : Z) : number := Fin (inject_Z z).

(** The character [U+0022], which a string literal cannot hold. *)
Definition dquote : string := String (ascii_of_nat 34) EmptyString.
Definition LF : string := String (ascii_of_nat 10) EmptyString.

Fixpoint spaces (n : nat) : string :=
  match n with
  | O => EmptyString
  | S k => String " " (spaces k)
  end.

(** *** Numbers *)

Definition is_integer (q : Q) : bool := Qeq_bool q (inject_Z (Qfloor q)).

(** [x >= y] on numbers: false as soon as one side is [NaN]. *)
Definition num_ge (x y : number) : bool :=
  match x, y with
  | NaN, _ | _, NaN => false
  | Fin a, Fin b => Qle_bool b a
  | Infinity false, _ => true
  | Infinity true, Infinity true => true
  | Infinity true, _ => false
  | Fin _, Infinity negative => negative
  end.

(** [x / d] for a literal divisor [d > 0].  The quotient of two doubles is
    rounded; here it is exact, which agrees with the double once floored for
    the integers below [2^53]. *)
Definition num_div (x : number) (d : positive) : number :=
  match x with
  | Fin q => Fin (q / inject_Z (Zpos d))
  | _ => x
  end.

Definition Qtruncate (q : Q) : Z :=
  if Qle_bool 0 q then Qfloor q else Qceiling q.

(** [x % d] for a literal divisor [d > 0]: the remainder has the sign of the
    dividend, and an infinite dividend gives [NaN]. *)
Definition num_rem (x : number) (d : positive) : number :=
  match x with
  | Fin q =>
      let d' := inject_Z (Zpos d) in
      Fin (q - d' * inject_Z (Qtruncate (q / d')))
  | _ => NaN
  end.

(** [Math.floor]. *)
Definition Math_floor (x : number) : number :=
  match x with
  | Fin q => Int (Qfloor q)
  | _ => x
  end.

Definition string_of_Z (z : Z) : string := NilZero.string_of_int (Z.to_int z).

(** An element of the page is known by its position in document order. *)
Abbreviation handle := nat (only parsing).

(** The runtime's conversions between doubles and text are not modelled:
    [Number::toString] outside the integers up to [2^53] (a fraction is
    printed with the fewest digits that read back as the same double, a large
    integer likewise), and the reading of a string as a number.  They are
    parameters of the model. *)
Class Runtime := {
  NumberToString_other : Q → string;
  StringToNumber : string → number
}.

Section Client.

Context `{Runtime}.

Definition NumberToString (x : number) : string :=
  match x with
  | NaN => "NaN"
  | Infinity false => "Infinity"
  | Infinity true => "-Infinity"
  | Fin q =>
      if is_integer q && (Z.abs (Qfloor q) <=? 2 ^ 53)%Z
      then string_of_Z (Qfloor q)
      else NumberToString_other q
  end.

(** *** Conversions *)

(** [ToBoolean]: the falsy values are [undefined], [null], [false], zero,
    [NaN] and the empty string. *)
Definition ToBoolean (v : value) : bool :=
  match v with
  | Undefined | Null => false
  | Bool b => b
  | Num NaN => false
  | Num (Infinity _) => true
  | Num (Fin q) => negb (Qeq_bool q 0)
  | Str s => negb (String.eqb s "")
  | Arr _ | Obj _ => true
  end.

(** The last member named [k], as [JSON.parse] keeps the last duplicate. *)
Fixpoint own_property (k : string) (members : list (string * value)) : option value :=
  match members with
  | [] => None
  | (k', v) :: rest =>
      match own_property k rest with
      | Some w => Some w
      | None => if String.eqb k k' then Some v else None
      end
  end.

(** [ToString].  An array joins its elements with commas, [null] elements
    printing as nothing.  An object prints through [Object.prototype.toString]
    unless a member named [toString] shadows it, in which case no conversion
    is left and a [TypeError] is thrown. *)
Fixpoint ToString (v : value) : result string :=
  match v with
  | Undefined => Ok "undefined"
  | Null => Ok "null"
  | Bool b => Ok (if b then "true" else "false")
  | Num n => Ok (NumberToString n)
  | Str s => Ok s
  | Arr l =>
      (fix join (l : list value) : result string :=
         match l with
         | [] => Ok ""
         | x :: rest =>
             s ← match x with
                 | Undefined | Null => Ok ""
                 | _ => ToString x
                 end;
             match rest with
             | [] => Ok s
             | _ => r ← join rest; Ok (s +:+ "," +:+ r)
             end
         end) l
  | Obj members =>
      match own_property "toString" members with
      | Some _ => Throw TypeError
      | None => Ok "[object Object]"
      end
  end.

(** [ToNumber]: an array or an object goes through its string. *)
Definition ToNumber (v : value) : result number :=
  match v with
  | Undefined => Ok NaN
  | Null => Ok (Int 0)
  | Bool b => Ok (Int (if b then 1 else 0))
  | Num n => Ok n
  | Str s => Ok (StringToNumber s)
  | Arr _ | Obj _ => s ← ToString v; Ok (StringToNumber s)
  end.

(** [v.k] for the member names the script reads, none of which exists on a
    prototype: a member of an object, [undefined] on any other value, a
    [TypeError] on [null] and [undefined]. *)
Definition get (v : value) (k : string) : result value :=
  match v with
  | Undefined | Null => Throw TypeError
  | Obj members => Ok (default Undefined (own_property k members))
  | _ => Ok Undefined
  end.

(** ** Pure helpers *)

(** [getPriorityClass], lines 168-172. *)
Definition getPriorityClass (score : value) : result string :=
  n ← ToNumber score;
  if num_ge n (Int 80) then Ok "high"
  else if num_ge n (Int 50) then Ok "medium"
  else Ok "low".

(** [formatUptime], lines 130-136. *)
Definition formatUptime (seconds : value) : result string :=
  if negb (ToBoolean seconds) then Ok "0s"
  else
    n ← ToNumber seconds;
    let h := Math_floor (num_div n 3600) in
    let m := Math_floor (num_div (num_rem n 3600) 60) in
    let s := Math_floor (num_rem n 60) in
    Ok (NumberToString h +:+ "h " +:+ NumberToString m +:+ "m "
        +:+ NumberToString s +:+ "s").

(** [String.prototype.substring(0, n)] as a method call on any value: only a
    string has the method. *)
Definition substring_method (v : value) (n : nat) : result string :=
  match v with
  | Str s => Ok (substring 0 n s)
  | _ => Throw TypeError
  end.

(** A line of a template literal: the line break, the indentation, the text. *)
Definition line (indent : nat) (text : string) : string :=
  LF +:+ spaces indent +:+ text.

(** The arrow function mapped over the emails, lines 140-149. *)
Definition renderEmailRow (e : value) : result string :=
  id ← get e "id" ≫= ToString;
  subject ← get e "subject";
  shown ← substring_method subject 40;
  sender ← get e "sender" ≫= ToString;
  score ← get e "priority_score";
  class ← getPriorityClass score;
  priority_label ← get e "priority_label";
  label ← ToString (if ToBoolean priority_label then priority_label else Str "Unknown");
  task_status ← get e "task_status" ≫= ToString;
  next_action ← get e "next_action" ≫= ToString;
  Ok (line 8 "<tr>"
      +:+ line 12 "<td>#" +:+ id +:+ "</td>"
      +:+ line 12 "<td>" +:+ shown +:+ "...</td>"
      +:+ line 12 "<td>" +:+ sender +:+ "</td>"
      +:+ line 12 "<td><span class=" +:+ dquote +:+ "tag " +:+ class +:+ dquote
      +:+ ">" +:+ label +:+ "</span></td>"
      +:+ line 12 "<td>" +:+ task_status +:+ "</td>"
      +:+ line 12 "<td>" +:+ next_action +:+ "</td>"
      +:+ line 8 "</tr>"
      +:+ line 4 "").

(** The arrow function mapped over the logs, lines 154-165. *)
Definition renderLogItem (l : value) : result string :=
  created_at ← get l "created_at" ≫= ToString;
  email_id ← get l "email_id" ≫= ToString;
  intent ← get l "intent" ≫= ToString;
  agent_action ← get l "agent_action" ≫= ToString;
  Ok (line 8 "<div class=" +:+ dquote +:+ "log-item" +:+ dquote +:+ ">"
      +:+ line 12 "<div class=" +:+ dquote +:+ "log-header" +:+ dquote +:+ ">"
      +:+ line 16 "<span>" +:+ created_at +:+ "</span>"
      +:+ line 16 "<span>ID: " +:+ email_id +:+ "</span>"
      +:+ line 12 "</div>"
      +:+ line 12 "<div class=" +:+ dquote +:+ "log-content" +:+ dquote +:+ ">"
      +:+ line 16 "<strong>Intent:</strong> " +:+ intent +:+ " <br>"
      +:+ line 16 "<strong>Action:</strong> " +:+ agent_action
      +:+ line 12 "</div>"
      +:+ line 8 "</div>"
      +:+ line 4 "").

(** [xs.map(f).join('')]: [map] exists on arrays only; the callback runs on
    the elements in order and the first exception ends the call. *)
Definition map_join (f : value → result string) (xs : value) : result string :=
  match xs with
  | Arr l => rows ← mapM f l; Ok (String.concat "" rows)
  | _ => Throw TypeError
  end.

(** ** Page and effects *)

(** An element of the page, as far as the script can tell elements apart.
    The page itself (index.html) is a parameter of the model: a list of
    elements in document order, an element being known by its position.
    [elem_id] is empty for an element without an identifier; [nav_li] says
    whether the selector [nav li] matches; [dataset_target] is the
    [data-target] attribute.  The text and the markup of an element are kept
    as two fields: markup assigned to [innerHTML] stays a string, and the
    elements a browser would build from it are not part of the page. *)
Record element := {
  elem_id : string;
  nav_li : bool;
  dataset_target : option string;
  classList : list string;
  textContent : string;
  innerHTML : string
}.

(** [currentState], lines 4-9. *)
Record current_state := {
  isRunning : value;
  stats : value;
  emails : value;
  logs : value
}.

Inductive http_method := GET | POST.

Record request := {
  method : http_method;
  url : string
}.

(** The asynchronous functions of the script. *)
Inductive async_fn :=
| FetchStatus
| FetchStats
| FetchEmails
| FetchLogs
| ToggleAgent.

(** A registration made by [setTimeout] or [setInterval]. *)
Record timer := {
  callback : async_fn;
  delay : Z;
  repeating : bool
}.

(** Everything the script can read or change: the page, its own state, and
    what it has sent to the outside: the [fetch] calls issued (oldest first,
    each with the function that awaits the answer), the timers registered
    and the lines written by [console.error]. *)
Record state := {
  document : list element;
  currentState : current_state;
  fetches : list (async_fn * request);
  timers : list timer;
  console : list (string * error)
}.

(** What a [fetch] followed by [Response.json] comes back with: the first
    promise rejects (no answer from the network), the second one does (the
    body is not JSON), or a value is parsed.  No status code appears: [fetch]
    resolves on any answer and the script never looks at [res.ok]. *)
Inductive response :=
| Rejected
| NotJson
| Json (data : value).

(** The constants bound when the script loads, lines 12-18: an element or
    [null], and the two static node lists. *)
Record bindings := {
  toggleBtn : option handle;
  refreshBtn : option handle;
  statusText : option handle;
  statusIndicator : option handle;
  navItems : list handle;
  pages : list handle;
  pageTitle : option handle
}.

(** *** The state and exception monad *)

Definition M (A : Type) : Type := state → result A * state.

#[global] Instance M_ret : MRet M := fun A a st => (Ok a, st).
#[global] Instance M_bind : MBind M := fun A B f m st =>
  match m st with
  | (Ok a, st') => f a st'
  | (Throw e, st') => (Throw e, st')
  end.

Definition throw {A} (e : error) : M A := fun st => (Throw e, st).

(** A computation that does not touch the state. *)
Definition lift {A} (r : result A) : M A := fun st => (r, st).

(** [try { body } catch (e) { handler e }]: what [body] did before throwing
    stays done. *)
Definition try_catch {A} (body : M A) (handler : error → M A) : M A := fun st =>
  match body st with
  | (Ok a, st') => (Ok a, st')
  | (Throw e, st') => handler e st'
  end.

Definition set_document (f : list element → list element) (st : state) : state :=
  {| document := f (document st); currentState := currentState st;
     fetches := fetches st; timers := timers st; console := console st |}.

Definition set_currentState (f : current_state → current_state) (st : state) : state :=
  {| document := document st; currentState := f (currentState st);
     fetches := fetches st; timers := timers st; console := console st |}.

Definition set_fetches (f : list (async_fn * request) → list (async_fn * request))
    (st : state) : state :=
  {| document := document st; currentState := currentState st;
     fetches := f (fetches st); timers := timers st; console := console st |}.

Definition set_timers (f : list timer → list timer) (st : state) : state :=
  {| document := document st; currentState := currentState st;
     fetches := fetches st; timers := f (timers st); console := console st |}.

Definition set_console (f : list (string * error) → list (string * error))
    (st : state) : state :=
  {| document := document st; currentState := currentState st;
     fetches := fetches st; timers := timers st; console := f (console st) |}.

(** *** The page *)

(** [document.getElementById]: the first element in document order with
    that identifier, and never an element without one. *)
Definition find_id (s : string) (doc : list element) : option handle :=
  if decide (s = "") then None
  else fst <$> list_find (fun e => elem_id e = s) doc.

(** The positions of the elements a selector matches, in document order. *)
Definition select (p : element → bool) (doc : list element) : list handle :=
  filter (fun i => from_option p false (doc !! i)) (seq 0 (length doc)).

Definition has_class (c : string) (e : element) : bool := bool_decide (c ∈ classList e).

(** The top-level constants of the script over a page. *)
Definition bind_constants (doc : list element) : bindings :=
  {| toggleBtn := find_id "toggle-btn" doc;
     refreshBtn := find_id "refresh-btn" doc;
     statusText := find_id "status-text" doc;
     statusIndicator := find_id "status-indicator" doc;
     navItems := select nav_li doc;
     pages := select (has_class "page") doc;
     pageTitle := find_id "page-title" doc |}.

Definition getElementById (s : string) : M (option handle) := fun st =>
  (Ok (find_id s (document st)), st).

(** A property access or a method call on what may be [null]. *)
Definition on_element (target : option handle) (f : element → element) : M unit :=
  match target with
  | None => throw TypeError
  | Some h => fun st => (Ok tt, set_document (alter f h) st)
  end.

Definition read_element {A} (target : option handle) (f : element → A) : M A :=
  match target with
  | None => throw TypeError
  | Some h => fun st =>
      match document st !! h with
      | Some e => (Ok (f e), st)
      | None => (Throw TypeError, st)
      end
  end.

Definition with_textContent (s : string) (e : element) : element :=
  {| elem_id := elem_id e; nav_li := nav_li e; dataset_target := dataset_target e;
     classList := classList e; textContent := s; innerHTML := innerHTML e |}.

Definition with_innerHTML (s : string) (e : element) : element :=
  {| elem_id := elem_id e; nav_li := nav_li e; dataset_target := dataset_target e;
     classList := classList e; textContent := textContent e; innerHTML := s |}.

Definition with_classList (f : list string → list string) (e : element) : element :=
  {| elem_id := elem_id e; nav_li := nav_li e; dataset_target := dataset_target e;
     classList := f (classList e); textContent := textContent e;
     innerHTML := innerHTML e |}.

(** The token list operations of [classList]. *)
Definition token_add (c : string) (l : list string) : list string :=
  if decide (c ∈ l) then l else l ++ [c].

Definition token_remove (c : string) (l : list string) : list string :=
  filter (fun x => x ≠ c) l.

Fixpoint token_put (old new : string) (l : list string) : list string :=
  match l with
  | [] => []
  | x :: rest =>
      if decide (x = old ∨ x = new)
      then new :: filter (fun y => y ≠ old ∧ y ≠ new) rest
      else x :: token_put old new rest
  end.

(** [replace(old, new)] does nothing when [old] is absent; otherwise the
    first of the two tokens becomes [new] and the other occurrences go. *)
Definition token_replace (old new : string) (l : list string) : list string :=
  if decide (old ∈ l) then token_put old new l else l.

(** [target.textContent = s] for a string. *)
Definition set_textContent (target : option handle) (s : string) : M unit :=
  on_element target (with_textContent s).

(** [target.textContent = v] for any value: the attribute is a nullable
    string, so [null] and [undefined] empty the element and any other value
    is converted. *)
Definition assign_textContent (target : option handle) (v : value) : M unit :=
  s ← lift (match v with
            | Undefined | Null => Ok ""
            | _ => ToString v
            end);
  set_textContent target s.

Definition set_innerHTML (target : option handle) (s : string) : M unit :=
  on_element target (with_innerHTML s).

Definition classList_add (target : option handle) (c : string) : M unit :=
  on_element target (with_classList (token_add c)).

Definition classList_remove (target : option handle) (c : string) : M unit :=
  on_element target (with_classList (token_remove c)).

Definition classList_replace (target : option handle) (old new : string) : M unit :=
  on_element target (with_classList (token_replace old new)).

(** *** The outside *)

Definition API_URL : string := "http://localhost:8000".

(** [fetch(url, { method })] called from [f], which then awaits. *)
Definition fetch (f : async_fn) (m : http_method) (u : string) : M unit := fun st =>
  (Ok tt, set_fetches (fun l => l ++ [(f, {| method := m; url := u |})]) st).

(** The value the two awaits of a fetching function produce. *)
Definition awaited_json (r : response) : M value :=
  match r with
  | Rejected => throw NetworkError
  | NotJson => throw SyntaxError
  | Json data => mret data
  end.

Definition console_error (message : string) (e : error) : M unit := fun st =>
  (Ok tt, set_console (fun l => l ++ [(message, e)]) st).

Definition setTimeout (f : async_fn) (ms : Z) : M unit := fun st =>
  (Ok tt, set_timers (fun l => l ++ [{| callback := f; delay := ms; repeating := false |}]) st).

Definition setInterval (f : async_fn) (ms : Z) : M unit := fun st =>
  (Ok tt, set_timers (fun l => l ++ [{| callback := f; delay := ms; repeating := true |}]) st).

(** ** Operations *)

(** The constants of lines 12-18, bound once when the script loads. *)
Variable E : bindings.

Fixpoint forEach {A} (f : A → M unit) (l : list A) : M unit :=
  match l with
  | [] => mret tt
  | x :: rest => f x;; forEach f rest
  end.

Definition when (b : bool) (m : M unit) : M unit := if b then m else mret tt.

(** [currentState.isRunning = v] and [currentState.isRunning]. *)
Definition write_isRunning (v : value) : M unit := fun st =>
  (Ok tt, set_currentState (fun c =>
     {| isRunning := v; stats := stats c; emails := emails c; logs := logs c |}) st).

Definition read_isRunning : M value := fun st =>
  (Ok (isRunning (currentState st)), st).

(** [updateStatus], lines 112-128. *)
Definition updateStatus (running uptime : value) : M unit :=
  write_isRunning running;;
  (if ToBoolean running then
     up ← lift (formatUptime uptime);
     set_textContent (statusText E) ("Running (" +:+ up +:+ ")");;
     classList_add (statusIndicator E) "running";;
     set_textContent (toggleBtn E) "Stop Agent";;
     classList_replace (toggleBtn E) "primary" "secondary"
   else
     set_textContent (statusText E) "Stopped";;
     classList_remove (statusIndicator E) "running";;
     set_textContent (toggleBtn E) "Start Agent";;
     classList_replace (toggleBtn E) "secondary" "primary");;
  stat_uptime ← getElementById "stat-uptime";
  up ← lift (formatUptime uptime);
  set_textContent stat_uptime up.

(** [renderEmails], lines 138-150. *)
Definition renderEmails (emails : value) : M unit :=
  tbody ← getElementById "emails-table-body";
  html ← lift (map_join renderEmailRow emails);
  set_innerHTML tbody html.

(** [renderLogs], lines 152-166. *)
Definition renderLogs (logs : value) : M unit :=
  container ← getElementById "logs-list";
  html ← lift (map_join renderLogItem logs);
  set_innerHTML container html.

(** An asynchronous function runs up to its [await] when it is called, and
    from there when the answer is in; other handlers may run in between.
    Each one is therefore two computations: [_start], which ends with the
    [fetch], and [_resume], which takes the answer.  Nothing of the function
    runs between [await fetch(..)] and [await res.json()], so the two
    awaits of a fetching function are one. *)

(** [fetchStatus], lines 57-66. *)
Definition fetchStatus_start : M unit :=
  fetch FetchStatus GET (API_URL +:+ "/control/status").

Definition fetchStatus_resume (r : response) : M unit :=
  try_catch
    (data ← awaited_json r;
     is_running ← lift (get data "is_running");
     uptime ← lift (get data "uptime");
     updateStatus is_running uptime)
    (fun e =>
       console_error "Status fetch failed" e;;
       updateStatus (Bool false) (Num (Int 0))).

(** [fetchStats], lines 68-79. *)
Definition fetchStats_start : M unit :=
  fetch FetchStats GET (API_URL +:+ "/stats").

Definition fetchStats_resume (r : response) : M unit :=
  try_catch
    (data ← awaited_json r;
     stat_emails ← getElementById "stat-emails";
     lift (get data "total_emails") ≫= assign_textContent stat_emails;;
     stat_actions ← getElementById "stat-actions";
     lift (get data "total_actions") ≫= assign_textContent stat_actions;;
     stat_retries ← getElementById "stat-retries";
     lift (get data "pending_retries") ≫= assign_textContent stat_retries)
    (fun e => console_error "Stats fetch failed" e).

(** [fetchEmails], lines 81-89.  The function declares no parameter: the
    arguments of a call are dropped. *)
Definition fetchEmails_start (arguments : list value) : M unit :=
  fetch FetchEmails GET (API_URL +:+ "/emails?limit=50").

Definition fetchEmails_resume (r : response) : M unit :=
  try_catch
    (data ← awaited_json r;
     renderEmails data)
    (fun e => console_error "Emails fetch failed" e).

(** [fetchLogs], lines 91-99. *)
Definition fetchLogs_start (arguments : list value) : M unit :=
  fetch FetchLogs GET (API_URL +:+ "/logs?limit=50").

Definition fetchLogs_resume (r : response) : M unit :=
  try_catch
    (data ← awaited_json r;
     renderLogs data)
    (fun e => console_error "Logs fetch failed" e).

(** [toggleAgent], lines 101-109.  Only [fetch] is awaited: any answer,
    whatever its status and body, resumes the function normally. *)
Definition toggleAgent_start : M unit :=
  running ← read_isRunning;
  let endpoint := if ToBoolean running then "/control/stop" else "/control/start" in
  fetch ToggleAgent POST (API_URL +:+ endpoint).

Definition toggleAgent_resume (r : response) : M unit :=
  try_catch
    (match r with
     | Rejected => throw NetworkError
     | _ => mret tt
     end;;
     setTimeout FetchStatus 500)
    (fun e => console_error "Toggle failed" e).

(** The click listener of a navigation item, lines 39-53.  An absent
    [data-target] reads as [undefined], which [getElementById] takes as the
    identifier spelled [undefined]. *)
Definition nav_click (item : handle) : M unit :=
  forEach (fun n => classList_remove (Some n) "active") (navItems E);;
  classList_add (Some item) "active";;
  target ← read_element (Some item) dataset_target;
  forEach (fun p => classList_remove (Some p) "active") (pages E);;
  page ← getElementById (default "undefined" target);
  classList_add page "active";;
  text ← read_element (Some item) textContent;
  set_textContent (pageTitle E) text;;
  when (bool_decide (target = Some "emails")) (fetchEmails_start []);;
  when (bool_decide (target = Some "logs")) (fetchLogs_start []).

(** The click listener of the refresh button, lines 32-36. *)
Definition refresh_click : M unit :=
  fetchStats_start;;
  fetchEmails_start [];;
  fetchLogs_start [].

(** The [DOMContentLoaded] listener, lines 21-28. *)
Definition init : M unit :=
  fetchStatus_start;;
  fetchStats_start;;
  setInterval FetchStatus 2000;;
  setInterval FetchStats 5000.

(** ** Events *)

Definition start (f : async_fn) : M unit :=
  match f with
  | FetchStatus => fetchStatus_start
  | FetchStats => fetchStats_start
  | FetchEmails => fetchEmails_start []
  | FetchLogs => fetchLogs_start []
  | ToggleAgent => toggleAgent_start
  end.

Definition resume (f : async_fn) (r : response) : M unit :=
  match f with
  | FetchStatus => fetchStatus_resume r
  | FetchStats => fetchStats_resume r
  | FetchEmails => fetchEmails_resume r
  | FetchLogs => fetchLogs_resume r
  | ToggleAgent => toggleAgent_resume r
  end.

(** What the event loop can hand to the script.  An answer may come for any
    function at any time, which covers every order in which the answers to
    overlapping requests arrive. *)
Inductive event :=
| DOMContentLoaded
| Click_toggle
| Click_refresh
| Click_nav (item : handle)
| Timer_fires (i : nat)
| Answer (f : async_fn) (r : response).

(** A due timer calls its function; a timeout is spent, an interval stays. *)
Definition fire (i : nat) : M unit := fun st =>
  match timers st !! i with
  | None => (Ok tt, st)
  | Some t =>
      start (callback t)
        (if repeating t then st else set_timers (delete i) st)
  end.

(** The listeners are attached at the top level, lines 21-54, in this order:
    [DOMContentLoaded], the toggle button, the refresh button, the
    navigation items.  [addEventListener] on [null] throws and ends the
    script, so a listener is there only if the buttons before it are. *)
Definition dispatch (ev : event) : M unit :=
  match ev with
  | DOMContentLoaded => init
  | Click_toggle =>
      when (bool_decide (is_Some (toggleBtn E))) toggleAgent_start
  | Click_refresh =>
      when (bool_decide (is_Some (toggleBtn E) ∧ is_Some (refreshBtn E))) refresh_click
  | Click_nav item =>
      when (bool_decide (is_Some (toggleBtn E) ∧ is_Some (refreshBtn E)
                         ∧ item ∈ navItems E))
        (nav_click item)
  | Timer_fires i => fire i
  | Answer f r => resume f r
  end.

(** The event loop: an exception that leaves a handler is reported by the
    browser and the next event is taken. *)
Definition run (evs : list event) (st : state) : state :=
  foldl (fun st ev => (dispatch ev st).2) st evs.

End Client.

(** * Stating the properties *)

(** ** Runs *)

(** The script's state when it has just loaded over a page. *)
Definition loaded (doc : list element) : state :=
  {| document := doc;
     currentState := {| isRunning := Bool false; stats := Obj []; emails := Arr [];
                        logs := Arr [] |};
     fetches := []; timers := []; console := [] |}.


(** ** What the navigation needs of a page *)

(** The navigation item [h] names a page: its [data-target], read as
    [getElementById] reads it, is the identifier of an element of [pages]. *)
Definition names_a_page (doc : list element) (h : handle) : bool :=
  match doc !! h with
  | Some e =>
      match find_id (default "undefined" (dataset_target e)) doc with
      | Some p => bool_decide (p ∈ pages (bind_constants doc))
      | None => false
      end
  | None => false
  end.

(** What the script expects of index.html for its navigation: the two
    buttons are there, so that the listeners get attached; the title is
    there; no navigation item is itself a page; every navigation item names
    a page. *)
Definition well_formed (doc : list element) : Prop :=
  is_Some (toggleBtn (bind_constants doc))
  ∧ is_Some (refreshBtn (bind_constants doc))
  ∧ is_Some (pageTitle (bind_constants doc))
  ∧ Forall (fun h => (h ∉ pages (bind_constants doc)) ∧ names_a_page doc h)
      (navItems (bind_constants doc)).

#[global] Instance well_formed_dec (doc : list element) : Decision (well_formed doc).
Proof. unfold well_formed. apply _. Defined.

(** Whether the element at [h] carries the class [c]. *)
Definition carries (c : string) (doc : list element) (h : handle) : bool :=
  from_option (has_class c) false (doc !! h).

(** The elements of [hs] that carry the class [active]. *)
Definition active (doc : list element) (hs : list handle) : list handle :=
  filter (fun h => carries "active" doc h) hs.


(** ** Parts of the state *)

(** What of an element no operation of the script changes: its identifier,
    whether it is a navigation item, its target, and whether it is a page. *)
Definition skeleton (e : element) : string * bool * option string * bool :=
  (elem_id e, nav_li e, dataset_target e, has_class "page" e).

Definition page_skeleton (st : state) : list (string * bool * option string * bool) :=
  skeleton <$> document st.

(** The three cache fields of [currentState]. *)
Definition cache (st : state) : value * value * value :=
  (stats (currentState st), emails (currentState st), logs (currentState st)).

(** [keeps π m]: running [m], to a result or to an exception, leaves the
    part [π] of the state as it was. *)
Definition keeps {X A} (π : state → X) (m : M A) : Prop :=
  ∀ st, π (m st).2 = π st.

(** ** Inputs and outcomes *)


(** A value that is no array and no object. *)
Definition primitive (v : value) : Prop :=
  match v with
  | Arr _ | Obj _ => False
  | _ => True
  end.

(** The page after [updateStatus] took its [else] branch. *)
Definition shown_stopped (text button indicator uptime : handle) (up : string)
    (doc : list element) : list element :=
  alter (with_textContent up) uptime
    (alter (with_classList (token_replace "secondary" "primary")) button
       (alter (with_textContent "Start Agent") button
          (alter (with_classList (token_remove "running")) indicator
             (alter (with_textContent "Stopped") text doc)))).

(** The page after [classList.remove(c)] on each element of [hs] in turn. *)
Definition remove_all (c : string) (hs : list handle) (doc : list element) : list element :=
  foldl (fun d h => alter (with_classList (token_remove c)) h d) doc hs.


(** ** A sample page *)

(** A page the script fits: three navigation items, three pages, the
    buttons, the status line, the counters and the two containers. *)
Definition plain (i : string) (classes : list string) (text : string) : element :=
  {| elem_id := i; nav_li := false; dataset_target := None; classList := classes;
     textContent := text; innerHTML := "" |}.

Definition nav_item (target text : string) (classes : list string) : element :=
  {| elem_id := ""; nav_li := true; dataset_target := Some target;
     classList := classes; textContent := text; innerHTML := "" |}.

Definition sample_page : list element :=
  [ nav_item "dashboard" "Dashboard" ["active"];
    nav_item "emails" "Emails" [];
    nav_item "logs" "Logs" [];
    plain "page-title" [] "Dashboard";
    plain "status-indicator" ["dot"] "";
    plain "status-text" [] "Checking...";
    plain "toggle-btn" ["btn"; "primary"] "Start Agent";
    plain "refresh-btn" ["btn"] "Refresh";
    plain "dashboard" ["page"; "active"] "";
    plain "stat-emails" [] "0";
    plain "stat-actions" [] "0";
    plain "stat-retries" [] "0";
    plain "stat-uptime" [] "0s";
    plain "emails" ["page"] "";
    plain "emails-table-body" [] "";
    plain "logs" ["page"] "";
    plain "logs-list" [] "" ].

(** A runtime to evaluate with: the two conversions left open are never
    reached on the inputs used below. *)
Definition sample_runtime : Runtime :=
  {| NumberToString_other := fun _ => ""; StringToNumber := fun _ => NaN |}.

(** The sample page once the agent is reported as running. *)
Definition running_state : state :=
  run (H := sample_runtime) (bind_constants sample_page)
    [DOMContentLoaded;
     Answer FetchStatus (Json (Obj [("is_running", Bool true);
                                    ("uptime", Num (Int 3661))]))]
    (loaded sample_page).

(** An email as the backend sends it. *)
Definition sample_email : list (string * value) :=
  [("id", Num (Int 7)); ("subject", Str "Quarterly report");
   ("sender", Str "ada@example.org"); ("priority_score", Num (Int 85));
   ("priority_label", Str "High"); ("task_status", Str "done");
   ("next_action", Null)].

(** ** More outcomes *)

(** The page after [updateStatus] took its [if] branch. *)
Definition shown_running (text button indicator uptime : handle) (up : string)
    (doc : list element) : list element :=
  alter (with_textContent up) uptime
    (alter (with_classList (token_replace "primary" "secondary")) button
       (alter (with_textContent "Stop Agent") button
          (alter (with_classList (token_add "running")) indicator
             (alter (with_textContent ("Running (" +:+ up +:+ ")")) text doc)))).

(** The page when [updateStatus] has gone through its [else] branch and not
    yet written the uptime counter. *)
Definition half_stopped (text button indicator : handle) (doc : list element)
    : list element :=
  alter (with_classList (token_replace "secondary" "primary")) button
    (alter (with_textContent "Start Agent") button
       (alter (with_classList (token_remove "running")) indicator
          (alter (with_textContent "Stopped") text doc))).

(** The four elements [updateStatus] writes to. *)
Definition status_elements (doc : list element) (text button indicator uptime : handle)
    : Prop :=
  find_id "status-text" doc = Some text
  ∧ find_id "toggle-btn" doc = Some button
  ∧ find_id "status-indicator" doc = Some indicator
  ∧ find_id "stat-uptime" doc = Some uptime.

(** What the page shows of the agent: the status line, the label of the
    toggle button, the indicator, and the style of the button. *)
Definition displays_stopped (doc : list element) (text button indicator : handle) : Prop :=
  textContent <$> doc !! text = Some "Stopped"
  ∧ textContent <$> doc !! button = Some "Start Agent"
  ∧ carries "running" doc indicator = false
  ∧ carries "secondary" doc button = false.

Definition displays_running (doc : list element) (text button indicator uptime : handle)
    : Prop :=
  ∃ up,
    textContent <$> doc !! text = Some ("Running (" +:+ up +:+ ")")
    ∧ textContent <$> doc !! uptime = Some up
    ∧ textContent <$> doc !! button = Some "Stop Agent"
    ∧ carries "running" doc indicator = true
    ∧ carries "primary" doc button = false.

(** The text an assignment to [textContent] leaves: nothing for [null] and
    [undefined], the value as a string otherwise. *)
Definition nullable_text `{Runtime} (v : value) : result string :=
  match v with
  | Undefined | Null => Ok ""
  | _ => ToString v
  end.

(** The member [k] of an object as a property access reads it. *)
Definition member (members : list (string * value)) (k : string) : value :=
  default Undefined (own_property k members).

(** ** What the script sends and schedules *)

(** The requests the script can make, each with the function that makes
    it. *)
Definition known_requests : list (async_fn * request) :=
  [ (FetchStatus, {| method := GET; url := "http://localhost:8000/control/status" |});
    (FetchStats, {| method := GET; url := "http://localhost:8000/stats" |});
    (FetchEmails, {| method := GET; url := "http://localhost:8000/emails?limit=50" |});
    (FetchLogs, {| method := GET; url := "http://localhost:8000/logs?limit=50" |});
    (ToggleAgent, {| method := POST; url := "http://localhost:8000/control/start" |});
    (ToggleAgent, {| method := POST; url := "http://localhost:8000/control/stop" |}) ].

(** The timers the script can register: the two polls and the follow-up of a
    toggle. *)
Definition known_timers : list timer :=
  [ {| callback := FetchStatus; delay := 2000; repeating := true |};
    {| callback := FetchStats; delay := 5000; repeating := true |};
    {| callback := FetchStatus; delay := 500; repeating := false |} ].

#[global] Instance http_method_eq_dec : EqDecision http_method.
Proof. solve_decision. Defined.

#[global] Instance async_fn_eq_dec : EqDecision async_fn.
Proof. solve_decision. Defined.

#[global] Instance request_eq_dec : EqDecision request.
Proof. solve_decision. Defined.

#[global] Instance timer_eq_dec : EqDecision timer.
Proof. solve_decision. Defined.

(** From [st] to [st'] requests were added, all of them known. *)
Definition sent_known (st st' : state) : Prop :=
  ∃ l, fetches st' = fetches st ++ l ∧ Forall (fun fr => fr ∈ known_requests) l.

(** If the timers of [st] are known, so are those of [st']. *)
Definition timers_stay_known (st st' : state) : Prop :=
  Forall (fun t => t ∈ known_timers) (timers st) →
  Forall (fun t => t ∈ known_timers) (timers st').

(** From [st] to [st'] no interval was taken away. *)
Definition intervals_stay (st st' : state) : Prop :=
  ∀ t, repeating t = true → t ∈ timers st → t ∈ timers st'.

(** [steps R m]: running [m], to a result or to an exception, takes a state
    to one that [R] relates to it. *)
Definition steps {A} (R : state → state → Prop) (m : M A) : Prop :=
  ∀ st, R st (m st).2.

(** A page the script does not fit: one navigation item without a
    [data-target], the first counter, and nothing else. *)
Definition partial_page : list element :=
  [ {| elem_id := ""; nav_li := true; dataset_target := None; classList := [];
       textContent := "Settings"; innerHTML := "" |};
    plain "stat-emails" [] "0" ].

(** * Properties *)

Section Properties.

Context `{Runtime}.

(** ** The pure helpers *)

Lemma num_ge_Fin (q : Q) (z : Z) :
  num_ge (Fin q) (Int z) = true ↔ (inject_Z z <= q)%Q.
Proof. unfold num_ge, Int. apply Qle_bool_iff. Qed.

Lemma num_ge_Fin_false (q : Q) (z : Z) :
  (q < inject_Z z)%Q → num_ge (Fin q) (Int z) = false.
Proof.
  intros Hlt. destruct (num_ge (Fin q) (Int z)) eqn:Hge; [|done].
  apply num_ge_Fin in Hge. exfalso. revert Hge. by apply Qlt_not_le.
Qed.

(** C1. [getPriorityClass] maps a score to [high] from 80 up, to [medium]
    from 50 up to 80 excluded, and to [low] below 50; so 80 is [high], 79 and
    50 are [medium], 49 is [low].  The numbers that are no rational follow
    the comparisons: positive infinity is [high], negative infinity and
    [NaN] are [low]. *)
Theorem getPriorityClass_thresholds (q : Q) :
  ((80 <= q)%Q → getPriorityClass (Num (Fin q)) = Ok "high")
  ∧ ((50 <= q)%Q ∧ (q < 80)%Q → getPriorityClass (Num (Fin q)) = Ok "medium")
  ∧ ((q < 50)%Q → getPriorityClass (Num (Fin q)) = Ok "low")
  ∧ getPriorityClass (Num (Int 80)) = Ok "high"
  ∧ getPriorityClass (Num (Int 79)) = Ok "medium"
  ∧ getPriorityClass (Num (Int 50)) = Ok "medium"
  ∧ getPriorityClass (Num (Int 49)) = Ok "low"
  ∧ getPriorityClass (Num (Infinity false)) = Ok "high"
  ∧ getPriorityClass (Num (Infinity true)) = Ok "low"
  ∧ getPriorityClass (Num NaN) = Ok "low".
Proof.
  unfold getPriorityClass. cbn [ToNumber mbind result_bind].
  split_and!; try reflexivity.
  - intros Hq. by rewrite (proj2 (num_ge_Fin q 80) Hq).
  - intros [Hlo Hhi].
    rewrite (num_ge_Fin_false q 80 Hhi).
    by rewrite (proj2 (num_ge_Fin q 50) Hlo).
  - intros Hq.
    rewrite (num_ge_Fin_false q 80), (num_ge_Fin_false q 50 Hq); [done|].
    eapply Qlt_trans; [exact Hq|reflexivity].
Qed.

(** The falsy values, one by one. *)
Lemma ToBoolean_false (v : value) :
  ToBoolean v = false ↔
  v = Undefined ∨ v = Null ∨ v = Bool false ∨ v = Num NaN ∨ v = Str ""
  ∨ ∃ q, v = Num (Fin q) ∧ (q == 0)%Q.
Proof.
  split.
  - destruct v as [| |[]|[|?|q]|s| |]; cbn; try discriminate; eauto 10.
    + intros Hq%negb_false_iff%Qeq_bool_iff. eauto 10.
    + destruct s; [eauto 10|discriminate].
  - intros [->|[->|[->|[->|[->|(q & -> & Hq)]]]]]; cbn; try reflexivity.
    apply negb_false_iff, Qeq_bool_iff, Hq.
Qed.

(** C2. [formatUptime] gives [0s] on 0, [0h 0m 59s] on 59 and [1h 1m 1s] on
    3661, and [0s] on every falsy argument. *)
Theorem formatUptime_examples :
  formatUptime (Num (Int 0)) = Ok "0s"
  ∧ formatUptime (Num (Int 59)) = Ok "0h 0m 59s"
  ∧ formatUptime (Num (Int 3661)) = Ok "1h 1m 1s"
  ∧ (∀ v, ToBoolean v = false → formatUptime v = Ok "0s")
  ∧ formatUptime Undefined = Ok "0s"
  ∧ formatUptime Null = Ok "0s"
  ∧ formatUptime (Bool false) = Ok "0s"
  ∧ formatUptime (Num NaN) = Ok "0s"
  ∧ formatUptime (Str "") = Ok "0s".
Proof.
  split_and!; try reflexivity.
  intros v Hv. unfold formatUptime. by rewrite Hv.
Qed.

(** ** Toggling the agent *)

(** C4. [toggleAgent] issues one request, a POST, and nothing else, before
    it awaits: to [/control/stop] when the cached flag is truthy, to
    [/control/start] otherwise.  The address is a function of the flag alone:
    no status request is made first. *)
Theorem toggleAgent_endpoint (st : state) :
  toggleAgent_start st =
    (Ok tt,
     set_fetches (fun l => l ++ [(ToggleAgent,
       {| method := POST;
          url := API_URL +:+ (if ToBoolean (isRunning (currentState st))
                              then "/control/stop" else "/control/start") |})]) st)
  ∧ (isRunning (currentState st) = Bool true →
       fetches (toggleAgent_start st).2 =
         fetches st ++ [(ToggleAgent,
           {| method := POST; url := "http://localhost:8000/control/stop" |})])
  ∧ (isRunning (currentState st) = Bool false →
       fetches (toggleAgent_start st).2 =
         fetches st ++ [(ToggleAgent,
           {| method := POST; url := "http://localhost:8000/control/start" |})]).
Proof.
  split_and!; [reflexivity| |]; intros Hflag;
    unfold toggleAgent_start, mbind, M_bind, fetch, read_isRunning; by rewrite Hflag.
Qed.

(** C8, as the code has it.  When the POST is answered, whatever the
    answer, [toggleAgent] registers one timeout of 500 ms for [fetchStatus]
    and nothing else; when [fetch] rejects, it registers no timer and writes
    one line to the console.  No exception leaves the function. *)
Theorem toggleAgent_follow_up (st : state) (r : response) :
  toggleAgent_resume r st =
    (Ok tt,
     match r with
     | Rejected => set_console (fun l => l ++ [("Toggle failed", NetworkError)]) st
     | _ => set_timers (fun l => l ++ [{| callback := FetchStatus; delay := 500;
                                          repeating := false |}]) st
     end).
Proof. by destruct r. Qed.

(** ** The page under the script *)

Lemma find_id_Some (s : string) (doc : list element) (h : handle) :
  find_id s doc = Some h →
  ∃ e, doc !! h = Some e ∧ elem_id e = s ∧ s ≠ "".
Proof.
  unfold find_id. case_decide as Hs; [done|].
  intros ([h' e] & Hfind & ->)%fmap_Some.
  apply list_find_Some in Hfind as (Hlook & Hid & _). eauto.
Qed.

Lemma find_id_lt (s : string) (doc : list element) (h : handle) :
  find_id s doc = Some h → h < length doc.
Proof. intros (e & Hlook & _)%find_id_Some. by eapply lookup_lt_Some. Qed.

(** Two identifiers never name the same element. *)
Lemma find_id_ne (s1 s2 : string) (doc : list element) (h1 h2 : handle) :
  find_id s1 doc = Some h1 → find_id s2 doc = Some h2 → s1 ≠ s2 → h1 ≠ h2.
Proof.
  intros (e1 & Hl1 & Hid1 & _)%find_id_Some (e2 & Hl2 & Hid2 & _)%find_id_Some Hne ->.
  congruence.
Qed.

Lemma find_id_fmap (s : string) (doc : list element) :
  find_id s doc = if decide (s = "") then None
                  else fst <$> list_find (fun i => i = s) (elem_id <$> doc).
Proof.
  unfold find_id. case_decide; [done|].
  rewrite list_find_fmap. by destruct (list_find _ doc) as [[]|].
Qed.

Lemma find_id_skeleton (s : string) (doc doc' : list element) :
  skeleton <$> doc' = skeleton <$> doc → find_id s doc' = find_id s doc.
Proof.
  intros Hsk. rewrite !find_id_fmap.
  assert (elem_id <$> doc' = elem_id <$> doc) as ->; [|done].
  change elem_id with ((fun k => k.1.1.1) ∘ skeleton).
  by rewrite !list_fmap_compose, Hsk.
Qed.

Lemma select_skeleton (p : element → bool) (q : string * bool * option string * bool → bool)
    (doc doc' : list element) :
  (∀ e, p e = q (skeleton e)) →
  skeleton <$> doc' = skeleton <$> doc → select p doc' = select p doc.
Proof.
  intros Hpq Hsk. unfold select.
  assert (length doc' = length doc) as ->.
  { by rewrite <-(length_fmap skeleton doc'), Hsk, length_fmap. }
  apply list_filter_iff. intros i.
  assert (skeleton <$> doc' !! i = skeleton <$> doc !! i) as Hi.
  { by rewrite <-!list_lookup_fmap, Hsk. }
  destruct (doc' !! i) as [e'|], (doc !! i) as [e|]; try done; cbn in *.
  rewrite !Hpq. assert (skeleton e' = skeleton e) as -> by congruence. done.
Qed.

(** The constants bound at load are determined by the skeleton of the page. *)
Lemma bind_constants_skeleton (doc doc' : list element) :
  skeleton <$> doc' = skeleton <$> doc → bind_constants doc' = bind_constants doc.
Proof.
  intros Hsk. unfold bind_constants.
  rewrite !(find_id_skeleton _ doc doc' Hsk).
  rewrite (select_skeleton nav_li (fun k => k.1.1.2) doc doc'), 
    (select_skeleton (has_class "page") (fun k => k.2) doc doc'); done.
Qed.

Lemma select_lt (p : element → bool) (doc : list element) (h : handle) :
  h ∈ select p doc → h < length doc.
Proof.
  unfold select. intros [_ Hin%elem_of_seq]%list_elem_of_filter. lia.
Qed.

Lemma select_NoDup (p : element → bool) (doc : list element) : NoDup (select p doc).
Proof. apply NoDup_filter, NoDup_seq. Qed.

(** An update of one element that keeps its skeleton keeps the page's. *)
Lemma skeleton_alter (f : element → element) (h : handle) (doc : list element) :
  (∀ e, skeleton (f e) = skeleton e) →
  skeleton <$> alter f h doc = skeleton <$> doc.
Proof.
  intros Hf. rewrite (list_fmap_alter skeleton f id).
  - by apply list_alter_id.
  - by apply Forall_forall.
Qed.

Lemma skeleton_with_textContent (s : string) (e : element) :
  skeleton (with_textContent s e) = skeleton e.
Proof. done. Qed.

Lemma skeleton_with_innerHTML (s : string) (e : element) :
  skeleton (with_innerHTML s e) = skeleton e.
Proof. done. Qed.

(** The tokens the script adds and removes. *)
Lemma elem_of_token_add (c x : string) (l : list string) :
  x ∈ token_add c l ↔ x = c ∨ x ∈ l.
Proof.
  unfold token_add. case_decide; [|rewrite elem_of_app, list_elem_of_singleton];
    naive_solver.
Qed.

Lemma elem_of_token_remove (c x : string) (l : list string) :
  x ∈ token_remove c l ↔ x ≠ c ∧ x ∈ l.
Proof. unfold token_remove. by rewrite list_elem_of_filter. Qed.

Lemma elem_of_token_put (old new x : string) (l : list string) :
  x ≠ old → x ≠ new → x ∈ token_put old new l ↔ x ∈ l.
Proof.
  intros Hold Hnew. induction l as [|y l IH]; [done|]. cbn.
  case_decide as Hy.
  - rewrite !elem_of_cons, list_elem_of_filter. naive_solver.
  - rewrite !elem_of_cons. naive_solver.
Qed.

Lemma elem_of_token_replace (old new x : string) (l : list string) :
  x ≠ old → x ≠ new → x ∈ token_replace old new l ↔ x ∈ l.
Proof.
  intros Hold Hnew. unfold token_replace. case_decide; [|done].
  by apply elem_of_token_put.
Qed.

Lemma skeleton_with_classList (f : list string → list string) (e : element) :
  (∀ l, "page" ∈ f l ↔ "page" ∈ l) →
  skeleton (with_classList f e) = skeleton e.
Proof.
  intros Hf. unfold skeleton, has_class; cbn. f_equal.
  apply bool_decide_ext, Hf.
Qed.

(** ** What a computation leaves alone *)

Section Keeps.

Context {X : Type} (π : state → X).

Lemma keeps_ret {A} (a : A) : keeps π (mret a).
Proof. done. Qed.

Lemma keeps_throw {A} (e : error) : keeps π (@throw A e).
Proof. done. Qed.

Lemma keeps_lift {A} (r : result A) : keeps π (lift r).
Proof. done. Qed.

Lemma keeps_bind {A B} (m : M A) (f : A → M B) :
  keeps π m → (∀ a, keeps π (f a)) → keeps π (m ≫= f).
Proof.
  intros Hm Hf st. unfold mbind, M_bind.
  specialize (Hm st). destruct (m st) as [[a|e] st']; cbn in *; [|done].
  by rewrite Hf.
Qed.

Lemma keeps_try_catch {A} (body : M A) (handler : error → M A) :
  keeps π body → (∀ e, keeps π (handler e)) → keeps π (try_catch body handler).
Proof.
  intros Hm Hf st. unfold try_catch.
  specialize (Hm st). destruct (body st) as [[a|e] st']; cbn in *; [done|].
  by rewrite Hf.
Qed.

Lemma keeps_if {A} (b : bool) (m1 m2 : M A) :
  keeps π m1 → keeps π m2 → keeps π (if b then m1 else m2).
Proof. by destruct b. Qed.

Lemma keeps_when (b : bool) (m : M unit) : keeps π m → keeps π (when b m).
Proof. by destruct b. Qed.

Lemma keeps_forEach {A} (f : A → M unit) (l : list A) :
  (∀ a, keeps π (f a)) → keeps π (forEach f l).
Proof.
  intros Hf. induction l as [|a l IH]; [done|].
  cbn [forEach]. apply keeps_bind; auto.
Qed.

Lemma keeps_getElementById (s : string) : keeps π (getElementById s).
Proof. done. Qed.

Lemma keeps_read_element {A} (target : option handle) (f : element → A) :
  keeps π (read_element target f).
Proof.
  intros st. destruct target as [h|]; [|done].
  cbn. by destruct (document st !! h).
Qed.

Lemma keeps_awaited_json (r : response) : keeps π (awaited_json r).
Proof. by destruct r. Qed.

Lemma keeps_fetch (f : async_fn) (m : http_method) (u : string) :
  (∀ g st, π (set_fetches g st) = π st) → keeps π (fetch f m u).
Proof. intros Hπ st. apply Hπ. Qed.

Lemma keeps_console_error (message : string) (e : error) :
  (∀ g st, π (set_console g st) = π st) → keeps π (console_error message e).
Proof. intros Hπ st. apply Hπ. Qed.

Lemma keeps_setTimeout (f : async_fn) (ms : Z) :
  (∀ g st, π (set_timers g st) = π st) → keeps π (setTimeout f ms).
Proof. intros Hπ st. apply Hπ. Qed.

Lemma keeps_setInterval (f : async_fn) (ms : Z) :
  (∀ g st, π (set_timers g st) = π st) → keeps π (setInterval f ms).
Proof. intros Hπ st. apply Hπ. Qed.

Lemma keeps_on_element (target : option handle) (f : element → element) :
  (∀ h st, π (set_document (alter f h) st) = π st) →
  keeps π (on_element target f).
Proof. intros Hπ st. destruct target; [apply Hπ|done]. Qed.

End Keeps.

(** *** The script's own state *)

Create HintDb keeps.

#[local] Hint Resolve keeps_ret keeps_throw keeps_lift keeps_bind keeps_try_catch
  keeps_if keeps_when keeps_forEach keeps_getElementById keeps_read_element
  keeps_awaited_json keeps_fetch keeps_console_error keeps_setTimeout
  keeps_setInterval keeps_on_element : keeps.
#[local] Hint Extern 1 (∀ _ _, _ = _) => intros; reflexivity : keeps.
#[local] Hint Extern 1 (_ ≠ _) => discriminate : keeps.
#[local] Hint Unfold set_textContent set_innerHTML classList_add classList_remove
  classList_replace : keeps.

Lemma keeps_read_isRunning {X} (π : state → X) : keeps π read_isRunning.
Proof. done. Qed.

Lemma write_isRunning_keeps_cache (v : value) : keeps cache (write_isRunning v).
Proof. done. Qed.

Lemma write_isRunning_keeps_page (v : value) : keeps page_skeleton (write_isRunning v).
Proof. done. Qed.

Lemma on_element_keeps_page (target : option handle) (f : element → element) :
  (∀ e, skeleton (f e) = skeleton e) → keeps page_skeleton (on_element target f).
Proof.
  intros Hf. apply keeps_on_element. intros h st.
  by apply skeleton_alter.
Qed.

Lemma with_classList_add_skeleton (c : string) (e : element) :
  c ≠ "page" → skeleton (with_classList (token_add c) e) = skeleton e.
Proof.
  intros Hc. apply skeleton_with_classList. intros l.
  rewrite elem_of_token_add. naive_solver.
Qed.

Lemma with_classList_remove_skeleton (c : string) (e : element) :
  c ≠ "page" → skeleton (with_classList (token_remove c) e) = skeleton e.
Proof.
  intros Hc. apply skeleton_with_classList. intros l.
  rewrite elem_of_token_remove. naive_solver.
Qed.

Lemma with_classList_replace_skeleton (old new : string) (e : element) :
  old ≠ "page" → new ≠ "page" →
  skeleton (with_classList (token_replace old new) e) = skeleton e.
Proof.
  intros Hold Hnew. apply skeleton_with_classList. intros l.
  by apply elem_of_token_replace.
Qed.

#[local] Hint Resolve keeps_read_isRunning write_isRunning_keeps_cache
  write_isRunning_keeps_page on_element_keeps_page skeleton_with_textContent
  skeleton_with_innerHTML with_classList_add_skeleton with_classList_remove_skeleton
  with_classList_replace_skeleton : keeps.

Section Frame.

Variable E : bindings.

(** [updateStatus] writes the flag and nothing else of [currentState]. *)
Lemma updateStatus_keeps_cache (running uptime : value) :
  keeps cache (updateStatus E running uptime).
Proof. unfold updateStatus. eauto 30 with keeps. Qed.

Lemma fetchStatus_resume_keeps_cache (r : response) :
  keeps cache (fetchStatus_resume E r).
Proof. unfold fetchStatus_resume. eauto 30 using updateStatus_keeps_cache with keeps. Qed.

(** Every other function leaves [currentState] as it is. *)
Lemma fetchStatus_start_keeps_currentState : keeps currentState fetchStatus_start.
Proof. unfold fetchStatus_start. eauto with keeps. Qed.

Lemma fetchStats_start_keeps_currentState : keeps currentState fetchStats_start.
Proof. unfold fetchStats_start. eauto with keeps. Qed.

Lemma fetchStats_resume_keeps_currentState (r : response) :
  keeps currentState (fetchStats_resume r).
Proof. unfold fetchStats_resume, assign_textContent. eauto 40 with keeps. Qed.

Lemma fetchEmails_start_keeps_currentState (arguments : list value) :
  keeps currentState (fetchEmails_start arguments).
Proof. unfold fetchEmails_start. eauto with keeps. Qed.

Lemma fetchEmails_resume_keeps_currentState (r : response) :
  keeps currentState (fetchEmails_resume r).
Proof. unfold fetchEmails_resume, renderEmails. eauto 30 with keeps. Qed.

Lemma fetchLogs_start_keeps_currentState (arguments : list value) :
  keeps currentState (fetchLogs_start arguments).
Proof. unfold fetchLogs_start. eauto with keeps. Qed.

Lemma fetchLogs_resume_keeps_currentState (r : response) :
  keeps currentState (fetchLogs_resume r).
Proof. unfold fetchLogs_resume, renderLogs. eauto 30 with keeps. Qed.

Lemma toggleAgent_start_keeps_currentState : keeps currentState toggleAgent_start.
Proof. unfold toggleAgent_start. eauto with keeps. Qed.

Lemma toggleAgent_resume_keeps_currentState (r : response) :
  keeps currentState (toggleAgent_resume r).
Proof. intros st. by destruct r. Qed.

Lemma nav_click_keeps_currentState (item : handle) :
  keeps currentState (nav_click E item).
Proof.
  unfold nav_click.
  eauto 40 using fetchEmails_start_keeps_currentState,
    fetchLogs_start_keeps_currentState with keeps.
Qed.

Lemma refresh_click_keeps_currentState : keeps currentState refresh_click.
Proof.
  unfold refresh_click.
  eauto using fetchStats_start_keeps_currentState, fetchEmails_start_keeps_currentState,
    fetchLogs_start_keeps_currentState with keeps.
Qed.

Lemma init_keeps_currentState : keeps currentState init.
Proof.
  unfold init.
  eauto 10 using fetchStatus_start_keeps_currentState,
    fetchStats_start_keeps_currentState with keeps.
Qed.

Lemma start_keeps_currentState (f : async_fn) : keeps currentState (start f).
Proof.
  destruct f; cbn [start];
    auto using fetchStatus_start_keeps_currentState, fetchStats_start_keeps_currentState,
      fetchEmails_start_keeps_currentState, fetchLogs_start_keeps_currentState,
      toggleAgent_start_keeps_currentState.
Qed.

Lemma fire_keeps_currentState (i : nat) : keeps currentState (fire i).
Proof.
  intros st. unfold fire. destruct (timers st !! i) as [t|]; [|done].
  rewrite start_keeps_currentState. by destruct (repeating t).
Qed.

Lemma resume_keeps_currentState (f : async_fn) (r : response) :
  f ≠ FetchStatus → keeps currentState (resume E f r).
Proof.
  destruct f; cbn [resume]; intros Hf;
    auto using fetchStats_resume_keeps_currentState, fetchEmails_resume_keeps_currentState,
      fetchLogs_resume_keeps_currentState, toggleAgent_resume_keeps_currentState.
  done.
Qed.

(** Only the answer to a status request reaches [updateStatus]. *)
Lemma dispatch_keeps_currentState (ev : event) :
  (∀ r, ev ≠ Answer FetchStatus r) → keeps currentState (dispatch E ev).
Proof.
  intros Hev. destruct ev as [| | |item|i|f r]; cbn [dispatch];
    auto using init_keeps_currentState, keeps_when, toggleAgent_start_keeps_currentState,
      refresh_click_keeps_currentState, nav_click_keeps_currentState,
      fire_keeps_currentState.
  apply resume_keeps_currentState. intros ->. by apply (Hev r).
Qed.

Lemma keeps_currentState_cache {A} (m : M A) : keeps currentState m → keeps cache m.
Proof. intros Hm st. unfold cache. by rewrite Hm. Qed.

Lemma dispatch_keeps_cache (ev : event) : keeps cache (dispatch E ev).
Proof.
  destruct ev as [| | |item|i|[] r];
    try (apply keeps_currentState_cache, dispatch_keeps_currentState; done).
  apply fetchStatus_resume_keeps_cache.
Qed.

Lemma run_keeps_cache (evs : list event) (st : state) :
  cache (run E evs st) = cache st.
Proof.
  revert st. induction evs as [|ev evs IH]; intros st; [done|].
  cbn. unfold run in IH. by rewrite IH, dispatch_keeps_cache.
Qed.

(** The flag holds the argument of [updateStatus] from its first statement
    on, whether the rest of the function completes or throws. *)
Lemma updateStatus_currentState (running uptime : value) (st : state) :
  currentState (updateStatus E running uptime st).2 =
    {| isRunning := running; stats := stats (currentState st);
       emails := emails (currentState st); logs := logs (currentState st) |}.
Proof.
  unfold updateStatus.
  match goal with
  | |- context [write_isRunning running ≫= ?k] =>
      assert (∀ u, keeps currentState (k u)) as Hrest by eauto 30 with keeps
  end.
  unfold mbind at 1, M_bind at 1. cbn [write_isRunning].
  by rewrite Hrest.
Qed.

(** C9. The cache fields [stats], [emails] and [logs] of [currentState]
    hold their initial values [{}], [[]] and [[]] after any run of the
    script, since no event changes them; an event other than the answer to
    a status request leaves the whole of [currentState] as it is, and so does
    each function that is not [updateStatus] or its caller [fetchStatus];
    [updateStatus] itself writes the flag and keeps the three fields. *)
Theorem currentState_cache_untouched :
  (∀ evs doc,
     stats (currentState (run E evs (loaded doc))) = Obj []
     ∧ emails (currentState (run E evs (loaded doc))) = Arr []
     ∧ logs (currentState (run E evs (loaded doc))) = Arr [])
  ∧ (∀ ev st,
       stats (currentState (dispatch E ev st).2) = stats (currentState st)
       ∧ emails (currentState (dispatch E ev st).2) = emails (currentState st)
       ∧ logs (currentState (dispatch E ev st).2) = logs (currentState st))
  ∧ (∀ ev st, (∀ r, ev ≠ Answer FetchStatus r) →
       currentState (dispatch E ev st).2 = currentState st)
  ∧ (∀ running uptime st,
       currentState (updateStatus E running uptime st).2 =
         {| isRunning := running; stats := stats (currentState st);
            emails := emails (currentState st); logs := logs (currentState st) |})
  ∧ (∀ r st,
       stats (currentState (fetchStatus_resume E r st).2) = stats (currentState st)
       ∧ emails (currentState (fetchStatus_resume E r st).2) = emails (currentState st)
       ∧ logs (currentState (fetchStatus_resume E r st).2) = logs (currentState st))
  ∧ (∀ st, currentState (fetchStatus_start st).2 = currentState st)
  ∧ (∀ r st, currentState (fetchStats_start st).2 = currentState st
             ∧ currentState (fetchStats_resume r st).2 = currentState st)
  ∧ (∀ arguments r st,
       currentState (fetchEmails_start arguments st).2 = currentState st
       ∧ currentState (fetchEmails_resume r st).2 = currentState st)
  ∧ (∀ arguments r st,
       currentState (fetchLogs_start arguments st).2 = currentState st
       ∧ currentState (fetchLogs_resume r st).2 = currentState st)
  ∧ (∀ r st, currentState (toggleAgent_start st).2 = currentState st
             ∧ currentState (toggleAgent_resume r st).2 = currentState st)
  ∧ (∀ item st, currentState (nav_click E item st).2 = currentState st).
Proof.
  assert (∀ st st', cache st' = cache st →
            stats (currentState st') = stats (currentState st)
            ∧ emails (currentState st') = emails (currentState st)
            ∧ logs (currentState st') = logs (currentState st)) as Hcache.
  { unfold cache. intros st st' [= -> -> ->]. done. }
  split_and!.
  - intros evs doc. apply (Hcache (loaded doc)), run_keeps_cache.
  - intros ev st. apply Hcache, dispatch_keeps_cache.
  - intros ev st Hev. by apply dispatch_keeps_currentState.
  - apply updateStatus_currentState.
  - intros r st. apply Hcache, fetchStatus_resume_keeps_cache.
  - apply fetchStatus_start_keeps_currentState.
  - intros r st. split;
      [apply fetchStats_start_keeps_currentState|apply fetchStats_resume_keeps_currentState].
  - intros arguments r st. split;
      [apply fetchEmails_start_keeps_currentState|apply fetchEmails_resume_keeps_currentState].
  - intros arguments r st. split;
      [apply fetchLogs_start_keeps_currentState|apply fetchLogs_resume_keeps_currentState].
  - intros r st. split;
      [apply toggleAgent_start_keeps_currentState|apply toggleAgent_resume_keeps_currentState].
  - intros item st. apply nav_click_keeps_currentState.
Qed.

End Frame.

(** ** The status line *)

Lemma find_id_alter (s : string) (f : element → element) (h : handle)
    (doc : list element) :
  (∀ e, skeleton (f e) = skeleton e) →
  find_id s (alter f h doc) = find_id s doc.
Proof. intros Hf. by apply find_id_skeleton, skeleton_alter. Qed.

Lemma updateStatus_stopped (E : bindings) (st : state) (running uptime : value)
    (text button indicator stat : handle) (up : string) :
  statusText E = Some text → toggleBtn E = Some button →
  statusIndicator E = Some indicator →
  find_id "stat-uptime" (document st) = Some stat →
  ToBoolean running = false → formatUptime uptime = Ok up →
  updateStatus E running uptime st =
    (Ok tt,
     set_document (shown_stopped text button indicator stat up)
       (set_currentState (fun c =>
          {| isRunning := running; stats := stats c; emails := emails c;
             logs := logs c |}) st)).
Proof.
  intros Htext Hbutton Hindicator Hstat Hfalsy Hup.
  unfold updateStatus. rewrite Hfalsy, Htext, Hbutton, Hindicator, Hup.
  unfold mbind, M_bind, getElementById. cbn.
  rewrite !find_id_alter, Hstat by auto with keeps.
  done.
Qed.

Lemma shown_stopped_text (text button indicator stat : handle) (up : string)
    (doc : list element) :
  text < length doc → button < length doc →
  text ≠ button → text ≠ indicator → text ≠ stat → button ≠ indicator →
  button ≠ stat →
  textContent <$> shown_stopped text button indicator stat up doc !! text = Some "Stopped"
  ∧ textContent <$> shown_stopped text button indicator stat up doc !! button
    = Some "Start Agent".
Proof.
  intros Htext Hbutton ? ? ? ? ?. unfold shown_stopped.
  destruct (lookup_lt_is_Some_2 doc text Htext) as [e He].
  destruct (lookup_lt_is_Some_2 doc button Hbutton) as [b Hb].
  split.
  - do 4 rewrite list_lookup_alter_ne by lia.
    by rewrite list_lookup_alter_eq, He.
  - rewrite list_lookup_alter_ne, !list_lookup_alter_eq by lia.
    do 2 rewrite list_lookup_alter_ne by lia.
    by rewrite Hb.
Qed.


(** ** The emails table *)

Lemma renderEmails_ok (st : state) (emails : value) (html : string) (tbody : handle) :
  find_id "emails-table-body" (document st) = Some tbody →
  map_join renderEmailRow emails = Ok html →
  renderEmails emails st = (Ok tt, set_document (alter (with_innerHTML html) tbody) st).
Proof.
  intros Htbody Hrows. unfold renderEmails, mbind, M_bind, getElementById, lift.
  by rewrite Htbody, Hrows.
Qed.

Lemma innerHTML_alter (html : string) (h : handle) (doc : list element) :
  h < length doc →
  innerHTML <$> alter (with_innerHTML html) h doc !! h = Some html.
Proof.
  intros Hh. destruct (lookup_lt_is_Some_2 doc h Hh) as [e He].
  by rewrite list_lookup_alter_eq, He.
Qed.

(** C5. On a page that has the table body, [renderEmails] of the empty
    array completes and leaves the empty string as the markup of the table
    body: no row. *)
Theorem renderEmails_empty (st : state) (tbody : handle) :
  find_id "emails-table-body" (document st) = Some tbody →
  renderEmails (Arr []) st = (Ok tt, set_document (alter (with_innerHTML "") tbody) st)
  ∧ innerHTML <$> document (renderEmails (Arr []) st).2 !! tbody = Some "".
Proof.
  intros Htbody.
  rewrite (renderEmails_ok st (Arr []) "" tbody Htbody eq_refl).
  split; [done|]. cbn. eapply innerHTML_alter, find_id_lt, Htbody.
Qed.

(** C7, as the code has it.  [fetchEmails] reads no argument: whatever it is
    called with, it asks for [/emails?limit=50].  When the answer is an array
    whose elements all render, the markup of the table body becomes the
    concatenation of the rows of that array, whatever it was before. *)
Theorem fetchEmails_replaces_table (st : state) (arguments rows : list value)
    (htmls : list string) (tbody : handle) :
  find_id "emails-table-body" (document st) = Some tbody →
  mapM renderEmailRow rows = Ok htmls →
  fetchEmails_start arguments st =
    (Ok tt,
     set_fetches (fun l => l ++ [(FetchEmails,
       {| method := GET; url := "http://localhost:8000/emails?limit=50" |})]) st)
  ∧ fetchEmails_resume (Json (Arr rows)) st =
      (Ok tt, set_document (alter (with_innerHTML (String.concat "" htmls)) tbody) st)
  ∧ innerHTML <$> document (fetchEmails_resume (Json (Arr rows)) st).2 !! tbody
    = Some (String.concat "" htmls).
Proof.
  intros Htbody Hrows.
  assert (fetchEmails_resume (Json (Arr rows)) st =
          (Ok tt, set_document (alter (with_innerHTML (String.concat "" htmls)) tbody) st))
    as Hresume.
  { unfold fetchEmails_resume, try_catch, mbind at 1, M_bind at 1. cbn [awaited_json mret M_ret].
    rewrite (renderEmails_ok st (Arr rows) (String.concat "" htmls) tbody Htbody); [done|].
    cbn [map_join]. by rewrite Hrows. }
  split_and!; [done|done|].
  rewrite Hresume. cbn. eapply innerHTML_alter, find_id_lt, Htbody.
Qed.

(** *** Rows *)

Lemma ToString_primitive (v : value) : primitive v → ∃ s, ToString v = Ok s.
Proof. destruct v; cbn; intros []; eauto. Qed.

Lemma getPriorityClass_primitive (v : value) :
  primitive v → ∃ c, getPriorityClass v = Ok c.
Proof.
  unfold getPriorityClass.
  destruct v; cbn; intros []; repeat case_match; eauto.
Qed.

Lemma substring_short (n : nat) (s : string) :
  (String.length s ≤ n)%nat → substring 0 n s = s.
Proof.
  revert n. induction s as [|c s IH]; intros [|n] Hn; cbn in *; try done; try lia.
  f_equal. apply IH. lia.
Qed.

Lemma substring_long (n : nat) (s : string) :
  (n ≤ String.length s)%nat →
  String.length (substring 0 n s) = n ∧ String.prefix (substring 0 n s) s = true.
Proof.
  revert n. induction s as [|c s IH]; intros [|n] Hn; cbn in *; try done; try lia.
  destruct (IH n ltac:(lia)) as [-> ->]. split; [done|].
  by destruct (ascii_dec c c).
Qed.

Lemma member_primitive (members : list (string * value)) (k : string) :
  (∀ k v, own_property k members = Some v → primitive v) →
  primitive (default Undefined (own_property k members)).
Proof.
  intros Hall. destruct (own_property k members) as [v|] eqn:Hk; [|done].
  by apply (Hall k).
Qed.

(** C10. For an email object whose subject is a string and whose members
    are numbers, strings, booleans or [null], the row [renderEmails] builds
    shows in its second cell the first 40 characters of the subject followed
    by three dots.  The dots are there whatever the length: a subject of
    40 characters or fewer is shown whole, and followed by the dots too. *)
Theorem renderEmailRow_subject (members : list (string * value)) (subject : string) :
  own_property "subject" members = Some (Str subject) →
  (∀ k v, own_property k members = Some v → primitive v) →
  (∃ id sender class label task_status next_action,
     renderEmailRow (Obj members) =
       Ok (line 8 "<tr>"
           +:+ line 12 "<td>#" +:+ id +:+ "</td>"
           +:+ line 12 "<td>" +:+ substring 0 40 subject +:+ "...</td>"
           +:+ line 12 "<td>" +:+ sender +:+ "</td>"
           +:+ line 12 "<td><span class=" +:+ dquote +:+ "tag " +:+ class +:+ dquote
           +:+ ">" +:+ label +:+ "</span></td>"
           +:+ line 12 "<td>" +:+ task_status +:+ "</td>"
           +:+ line 12 "<td>" +:+ next_action +:+ "</td>"
           +:+ line 8 "</tr>"
           +:+ line 4 ""))
  ∧ ((String.length subject ≤ 40)%nat → substring 0 40 subject = subject)
  ∧ ((40 ≤ String.length subject)%nat →
       String.length (substring 0 40 subject) = 40%nat
       ∧ String.prefix (substring 0 40 subject) subject = true).
Proof.
  intros Hsubject Hall. split_and!.
  - unfold renderEmailRow, get. cbn [mbind result_bind].
    rewrite Hsubject. cbn [default substring_method].
    destruct (ToString_primitive _ (member_primitive members "id" Hall)) as [id ->].
    destruct (ToString_primitive _ (member_primitive members "sender" Hall))
      as [sender ->].
    destruct (getPriorityClass_primitive _ (member_primitive members "priority_score" Hall))
      as [class ->].
    destruct (ToString_primitive _ (member_primitive members "task_status" Hall))
      as [task_status ->].
    destruct (ToString_primitive _ (member_primitive members "next_action" Hall))
      as [next_action ->].
    pose proof (member_primitive members "priority_label" Hall) as Hlabel.
    destruct (ToString_primitive
                (if ToBoolean (default Undefined (own_property "priority_label" members))
                 then default Undefined (own_property "priority_label" members)
                 else Str "Unknown")) as [label ->]; [by case_match|].
    by exists id, sender, class, label, task_status, next_action.
  - apply substring_short.
  - apply substring_long.
Qed.

(** ** The page keeps its skeleton *)

Section Page.

Variable E : bindings.




















End Page.



(** ** Navigation *)

Lemma remove_all_cons (c : string) (x : handle) (hs : list handle) (doc : list element) :
  remove_all c (x :: hs) doc
  = remove_all c hs (alter (with_classList (token_remove c)) x doc).
Proof. done. Qed.

Lemma forEach_classList_remove (c : string) (hs : list handle) (st : state) :
  forEach (fun h => classList_remove (Some h) c) hs st
  = (Ok tt, set_document (remove_all c hs) st).
Proof.
  revert st. induction hs as [|h hs IH]; intros st.
  - by destruct st.
  - cbn [forEach]. unfold mbind, M_bind. cbn [classList_remove on_element].
    rewrite IH. by destruct st.
Qed.

Lemma carries_alter_ne (c : string) (f : element → element) (x h : handle)
    (doc : list element) :
  x ≠ h → carries c (alter f x doc) h = carries c doc h.
Proof. intros Hne. unfold carries. by rewrite list_lookup_alter_ne. Qed.

Lemma carries_with_textContent (c s : string) (x h : handle) (doc : list element) :
  carries c (alter (with_textContent s) x doc) h = carries c doc h.
Proof.
  unfold carries. destruct (decide (x = h)) as [->|Hne].
  - rewrite list_lookup_alter_eq. by destruct (doc !! h).
  - by rewrite list_lookup_alter_ne.
Qed.

Lemma carries_add (c : string) (h : handle) (doc : list element) :
  h < length doc → carries c (alter (with_classList (token_add c)) h doc) h = true.
Proof.
  intros Hh. destruct (lookup_lt_is_Some_2 doc h Hh) as [e He].
  unfold carries. rewrite list_lookup_alter_eq, He. unfold has_class; cbn.
  apply bool_decide_eq_true, elem_of_token_add. by left.
Qed.

Lemma carries_remove (c : string) (h : handle) (doc : list element) :
  carries c (alter (with_classList (token_remove c)) h doc) h = false.
Proof.
  unfold carries. rewrite list_lookup_alter_eq.
  destruct (doc !! h) as [e|]; [|done]. unfold has_class; cbn.
  apply bool_decide_eq_false. rewrite elem_of_token_remove. naive_solver.
Qed.

Lemma carries_remove_all (c : string) (hs : list handle) (doc : list element) (h : handle) :
  carries c (remove_all c hs doc) h
  = if decide (h ∈ hs) then false else carries c doc h.
Proof.
  revert doc. induction hs as [|x hs IH]; intros doc; [done|].
  rewrite remove_all_cons, IH.
  destruct (decide (h ∈ hs)) as [Hin|Hnin].
  - rewrite decide_True; [done|]. by right.
  - destruct (decide (x = h)) as [->|Hne].
    + rewrite decide_True by left. apply carries_remove.
    + rewrite decide_False by (rewrite elem_of_cons; naive_solver).
      by apply carries_alter_ne.
Qed.

Lemma length_remove_all (c : string) (hs : list handle) (doc : list element) :
  length (remove_all c hs doc) = length doc.
Proof.
  revert doc. induction hs as [|x hs IH]; intros doc; [done|].
  by rewrite remove_all_cons, IH, length_alter.
Qed.

(** A change of classes changes neither text nor target. *)
Lemma lookup_alter_with_classList {A} (g : element → A) (f : list string → list string)
    (x h : handle) (doc : list element) :
  (∀ e, g (with_classList f e) = g e) →
  g <$> alter (with_classList f) x doc !! h = g <$> doc !! h.
Proof.
  intros Hg. destruct (decide (x = h)) as [->|Hne].
  - rewrite list_lookup_alter_eq. destruct (doc !! h); [|done]. cbn. by rewrite Hg.
  - by rewrite list_lookup_alter_ne.
Qed.

Lemma lookup_remove_all {A} (g : element → A) (c : string) (hs : list handle)
    (doc : list element) (h : handle) :
  (∀ f e, g (with_classList f e) = g e) →
  g <$> remove_all c hs doc !! h = g <$> doc !! h.
Proof.
  intros Hg. revert doc. induction hs as [|x hs IH]; intros doc; [done|].
  rewrite remove_all_cons, IH. by apply lookup_alter_with_classList.
Qed.

Lemma skeleton_remove_all (c : string) (hs : list handle) (doc : list element) :
  c ≠ "page" → skeleton <$> remove_all c hs doc = skeleton <$> doc.
Proof.
  intros Hc. revert doc. induction hs as [|x hs IH]; intros doc; [done|].
  rewrite remove_all_cons, IH. apply skeleton_alter. intros e. by apply with_classList_remove_skeleton.
Qed.

(** One element of a list without repetition satisfies a predicate that
    singles it out. *)
Lemma filter_singles_out (P : handle → Prop) `{∀ h, Decision (P h)}
    (l : list handle) (x : handle) :
  NoDup l → x ∈ l → (∀ y, y ∈ l → P y ↔ y = x) → filter P l = [x].
Proof.
  intros Hnd Hx HP. induction Hnd as [|y l Hy Hnd IH]; [by apply elem_of_nil in Hx|].
  rewrite filter_cons. destruct (decide (y = x)) as [->|Hne].
  - rewrite decide_True by (apply HP; [left|done]). f_equal.
    destruct (filter P l) as [|z rest] eqn:Hfilter; [done|].
    assert (z ∈ filter P l) as [HPz Hz]%list_elem_of_filter by (rewrite Hfilter; left).
    apply HP in HPz; [|by right]. by subst.
  - rewrite decide_False by (rewrite HP by left; done).
    apply IH.
    + apply elem_of_cons in Hx as [->|]; done.
    + intros z Hz. apply HP. by right.
Qed.

(** One step through a sequence of statements. *)
Ltac step_bind :=
  try (unfold mbind at 1, M_bind at 1);
  cbn [classList_add set_textContent on_element read_element
       getElementById set_document document currentState fetches timers console].







(** ** More on the pure helpers *)

Lemma Qfloor_div_Z (a : Z) (d : positive) :
  Qfloor (inject_Z a / inject_Z (Zpos d)) = (a / Zpos d)%Z.
Proof.
  unfold Qdiv, Qmult, Qinv, inject_Z, Qfloor. cbn.
  by rewrite Z.mul_1_r.
Qed.

Lemma Qtruncate_div_Z (a : Z) (d : positive) :
  Qtruncate (inject_Z a / inject_Z (Zpos d)) = Z.quot a (Zpos d).
Proof.
  unfold Qtruncate.
  destruct (Qle_bool 0 (inject_Z a / inject_Z (Z.pos d))) eqn:Hsign.
  - rewrite Qfloor_div_Z.
    apply Qle_bool_iff in Hsign.
    assert (0 <= a)%Z as Ha.
    { unfold Qle, Qdiv, Qmult, Qinv, inject_Z in Hsign. cbn in Hsign. lia. }
    symmetry. apply Z.quot_div_nonneg; lia.
  - assert (a < 0)%Z as Ha.
    { destruct (Z_lt_le_dec a 0) as [|Hge]; [done|].
      assert (Qle_bool 0 (inject_Z a / inject_Z (Z.pos d)) = true) as Htrue; [|congruence].
      apply Qle_bool_iff. unfold Qle, Qdiv, Qmult, Qinv, inject_Z. cbn. lia. }
    unfold Qceiling.
    assert (- (inject_Z a / inject_Z (Z.pos d)) == inject_Z (- a) / inject_Z (Z.pos d))%Q
      as ->.
    { unfold Qeq, Qdiv, Qmult, Qinv, Qopp, inject_Z. cbn. lia. }
    rewrite Qfloor_div_Z.
    rewrite <-(Z.opp_involutive a) at 2. rewrite Z.quot_opp_l by lia.
    f_equal. symmetry. apply Z.quot_div_nonneg; lia.
Qed.

(** On an integer, [%] is the remainder of the truncated division. *)
Lemma num_rem_Int (a : Z) (d : positive) :
  ∃ q, num_rem (Int a) d = Fin q ∧ (q == inject_Z (Z.rem a (Zpos d)))%Q.
Proof.
  eexists. split; [reflexivity|]. cbn zeta.
  rewrite Qtruncate_div_Z.
  rewrite <-inject_Z_mult.
  unfold Qminus. rewrite <-inject_Z_opp, <-inject_Z_plus.
  assert (a + - (Z.pos d * (a ÷ Z.pos d)) = Z.rem a (Z.pos d))%Z as ->; [|reflexivity].
  pose proof (Z.quot_rem' a (Z.pos d)). lia.
Qed.

Lemma NumberToString_Int (z : Z) :
  (Z.abs z <= 2 ^ 53)%Z → NumberToString (Int z) = string_of_Z z.
Proof.
  intros Hz. unfold NumberToString, Int.
  rewrite Qfloor_Z.
  assert (is_integer (inject_Z z) = true) as ->.
  { unfold is_integer. rewrite Qfloor_Z. by apply Qeq_bool_iff. }
  by rewrite (proj2 (Z.leb_le _ _) Hz).
Qed.

Lemma ToBoolean_Int (n : Z) : n ≠ 0%Z → ToBoolean (Num (Int n)) = true.
Proof.
  intros Hn. cbn. apply negb_true_iff.
  destruct (Qeq_bool (inject_Z n) 0) eqn:Hq; [|done].
  apply Qeq_bool_eq in Hq. unfold Qeq in Hq. cbn in Hq. lia.
Qed.

(** X1. For a whole number of seconds other than zero (up to [2^53] in
    size), [formatUptime] prints the floored quotient by 3600, the floored
    quotient by 60 of the remainder by 3600, and the remainder by 60.  For a
    positive uptime these are the hours, minutes and seconds: they add up to
    the uptime again, minutes and seconds staying below 60, and the hours are
    not capped.  A negative uptime is not clamped: it prints negative
    fields. *)
Theorem formatUptime_integer (n : Z) :
  n ≠ 0%Z → (Z.abs n <= 2 ^ 53)%Z →
  formatUptime (Num (Int n))
  = Ok (string_of_Z (n / 3600) +:+ "h " +:+ string_of_Z (Z.rem n 3600 / 60) +:+ "m "
        +:+ string_of_Z (Z.rem n 60) +:+ "s")
  ∧ ((0 < n)%Z →
       n = (3600 * (n / 3600) + 60 * (Z.rem n 3600 / 60) + Z.rem n 60)%Z
       ∧ (0 <= n / 3600)%Z
       ∧ (0 <= Z.rem n 3600 / 60 < 60)%Z
       ∧ (0 <= Z.rem n 60 < 60)%Z)
  ∧ ((n < 0)%Z → (n / 3600 < 0)%Z ∧ (Z.rem n 60 <= 0)%Z).
Proof.
  intros Hn Hbound.
  pose proof (Z.div_mod n 3600 ltac:(lia)) as Hdiv.
  pose proof (Z.mod_pos_bound n 3600 ltac:(lia)) as Hmod.
  pose proof (Z.quot_rem' n 3600) as Hquot.
  pose proof (Z.rem_bound_abs n 3600 ltac:(lia)) as Hrem.
  pose proof (Z.quot_rem' n 60) as Hquot60.
  pose proof (Z.rem_bound_abs n 60 ltac:(lia)) as Hrem60.
  pose proof (Z.div_mod (Z.rem n 3600) 60 ltac:(lia)) as Hdiv'.
  pose proof (Z.mod_pos_bound (Z.rem n 3600) 60 ltac:(lia)) as Hmod'.
  split_and!.
  - unfold formatUptime. rewrite ToBoolean_Int by done.
    cbn [negb ToNumber mbind result_bind].
    destruct (num_rem_Int n 3600) as (q & -> & Hq).
    destruct (num_rem_Int n 60) as (q' & -> & Hq').
    cbn [num_div Int Math_floor]. fold (Int (Qfloor q')).
    rewrite Qfloor_div_Z, Hq, Qfloor_div_Z, Hq', Qfloor_Z.
    fold (Int (n / 3600)) (Int (Z.rem n 3600 / 60)).
    rewrite !NumberToString_Int; [done|lia..].
  - intros Hpos.
    pose proof (Z.rem_nonneg n 3600 ltac:(lia) ltac:(lia)).
    pose proof (Z.rem_nonneg n 60 ltac:(lia) ltac:(lia)).
    assert (Z.rem n 3600 mod 60 = Z.rem n 60)%Z as Hsame.
    { rewrite !Z.rem_mod_nonneg by lia.
      apply Z.mod_mod_divide. by exists 60%Z. }
    lia.
  - intros Hneg.
    pose proof (Z.rem_nonpos n 60 ltac:(lia) ltac:(lia)). lia.
Qed.

(** ** The status line, whatever the answer *)

Lemma not_elem_of_token_replace (old new : string) (l : list string) :
  old ≠ new → old ∉ token_replace old new l.
Proof.
  intros Hne. unfold token_replace. case_decide as Hin; [|done]. clear Hin.
  induction l as [|x l IH]; cbn; [by apply not_elem_of_nil|].
  case_decide as Hx.
  - rewrite not_elem_of_cons, list_elem_of_filter. naive_solver.
  - rewrite not_elem_of_cons. naive_solver.
Qed.

Lemma carries_replace_old (old new : string) (h : handle) (doc : list element) :
  old ≠ new →
  carries old (alter (with_classList (token_replace old new)) h doc) h = false.
Proof.
  intros Hne. unfold carries. rewrite list_lookup_alter_eq.
  destruct (doc !! h) as [e|]; [|done]. unfold has_class; cbn.
  by apply bool_decide_eq_false, not_elem_of_token_replace.
Qed.

Lemma status_elements_distinct (doc : list element) (text button indicator stat : handle) :
  status_elements doc text button indicator stat →
  text < length doc ∧ button < length doc ∧ indicator < length doc ∧ stat < length doc
  ∧ text ≠ button ∧ text ≠ indicator ∧ text ≠ stat ∧ button ≠ indicator
  ∧ button ≠ stat ∧ indicator ≠ stat.
Proof.
  intros (Ht & Hb & Hi & Hs).
  split_and!; try (by eapply find_id_lt); by eapply find_id_ne.
Qed.

Lemma status_elements_skeleton (doc doc' : list element)
    (text button indicator stat : handle) :
  skeleton <$> doc' = skeleton <$> doc →
  status_elements doc text button indicator stat →
  status_elements doc' text button indicator stat.
Proof.
  intros Hsk. unfold status_elements. by rewrite !(find_id_skeleton _ doc doc' Hsk).
Qed.

Lemma shown_stopped_displays (text button indicator stat : handle) (up : string)
    (doc : list element) :
  status_elements doc text button indicator stat →
  displays_stopped (shown_stopped text button indicator stat up doc) text button indicator.
Proof.
  intros Hel.
  destruct (status_elements_distinct _ _ _ _ _ Hel)
    as (? & ? & ? & ? & ? & ? & ? & ? & ? & ?).
  destruct (shown_stopped_text text button indicator stat up doc) as [Ht Hb]; try done.
  split_and!; try done; unfold shown_stopped.
  - rewrite carries_with_textContent, carries_alter_ne, carries_with_textContent by done.
    apply carries_remove.
  - rewrite carries_with_textContent. by apply carries_replace_old.
Qed.

Lemma shown_running_displays (text button indicator stat : handle) (up : string)
    (doc : list element) :
  status_elements doc text button indicator stat →
  displays_running (shown_running text button indicator stat up doc)
    text button indicator stat.
Proof.
  intros Hel.
  destruct (status_elements_distinct _ _ _ _ _ Hel)
    as (Htext & Hbutton & Hindicator & Hstat & ? & ? & ? & ? & ? & ?).
  destruct (lookup_lt_is_Some_2 doc text Htext) as [e He].
  destruct (lookup_lt_is_Some_2 doc button Hbutton) as [b Hb].
  destruct (lookup_lt_is_Some_2 doc stat Hstat) as [s Hs].
  exists up. unfold shown_running. split_and!.
  - do 4 rewrite list_lookup_alter_ne by lia.
    by rewrite list_lookup_alter_eq, He.
  - rewrite list_lookup_alter_eq.
    do 4 rewrite list_lookup_alter_ne by lia.
    by rewrite Hs.
  - rewrite list_lookup_alter_ne, !list_lookup_alter_eq by lia.
    do 2 rewrite list_lookup_alter_ne by lia.
    by rewrite Hb.
  - rewrite carries_with_textContent, carries_alter_ne, carries_with_textContent by done.
    apply carries_add. by rewrite length_alter.
  - rewrite carries_with_textContent. by apply carries_replace_old.
Qed.

Lemma half_stopped_skeleton (text button indicator : handle) (doc : list element) :
  skeleton <$> half_stopped text button indicator doc = skeleton <$> doc.
Proof. unfold half_stopped. rewrite !skeleton_alter; auto with keeps. Qed.

(** [updateStatus] when the first argument is truthy. *)
Lemma updateStatus_running (E : bindings) (st : state) (running uptime : value)
    (text button indicator stat : handle) (up : string) :
  statusText E = Some text → toggleBtn E = Some button →
  statusIndicator E = Some indicator →
  find_id "stat-uptime" (document st) = Some stat →
  ToBoolean running = true → formatUptime uptime = Ok up →
  updateStatus E running uptime st =
    (Ok tt,
     set_document (shown_running text button indicator stat up)
       (set_currentState (fun c =>
          {| isRunning := running; stats := stats c; emails := emails c;
             logs := logs c |}) st)).
Proof.
  intros Htext Hbutton Hindicator Hstat Htruthy Hup.
  unfold updateStatus. rewrite Htruthy, Htext, Hbutton, Hindicator, Hup.
  unfold mbind, M_bind, getElementById. cbn.
  rewrite !find_id_alter, Hstat by auto with keeps.
  done.
Qed.

(** [updateStatus] when the uptime cannot be formatted: the exception comes
    before any write to the page in the [if] branch, and before the last one
    in the [else] branch. *)
Lemma updateStatus_throws (E : bindings) (st : state) (running uptime : value)
    (text button indicator : handle) (e : error) :
  statusText E = Some text → toggleBtn E = Some button →
  statusIndicator E = Some indicator →
  formatUptime uptime = Throw e →
  updateStatus E running uptime st =
    (Throw e,
     set_document
       (if ToBoolean running then fun doc => doc else half_stopped text button indicator)
       (set_currentState (fun c =>
          {| isRunning := running; stats := stats c; emails := emails c;
             logs := logs c |}) st)).
Proof.
  intros Htext Hbutton Hindicator Hup.
  unfold updateStatus. rewrite Htext, Hbutton, Hindicator, Hup.
  unfold mbind, M_bind, getElementById.
  destruct (ToBoolean running); cbn; by destruct st.
Qed.

Lemma try_catch_Ok {A} (body : M A) (handler : error → M A) (st st' : state) (a : A) :
  body st = (Ok a, st') → try_catch body handler st = (Ok a, st').
Proof. intros Hbody. unfold try_catch. by rewrite Hbody. Qed.

Lemma try_catch_Throw {A} (body : M A) (handler : error → M A) (st st' : state)
    (e : error) :
  body st = (Throw e, st') → try_catch body handler st = handler e st'.
Proof. intros Hbody. unfold try_catch. by rewrite Hbody. Qed.

(** The [try] block of [fetchStatus] either throws before it touches
    anything, or is a call of [updateStatus]. *)
Lemma fetchStatus_body (E : bindings) (r : response) (st : state) :
  (∃ e, (data ← awaited_json r;
         is_running ← lift (get data "is_running");
         uptime ← lift (get data "uptime");
         updateStatus E is_running uptime) st = (Throw e, st))
  ∨ (∃ running uptime,
       (data ← awaited_json r;
        is_running ← lift (get data "is_running");
        uptime ← lift (get data "uptime");
        updateStatus E is_running uptime) st = updateStatus E running uptime st).
Proof.
  destruct r as [| |data]; [left; by eexists..|].
  destruct data; try (left; by eexists); right; by eexists _, _.
Qed.

(** The [catch] block of [fetchStatus] on a page that has the four
    elements. *)
Lemma fetchStatus_handler (E : bindings) (st : state) (e : error)
    (text button indicator stat : handle) :
  statusText E = Some text → toggleBtn E = Some button →
  statusIndicator E = Some indicator →
  find_id "stat-uptime" (document st) = Some stat →
  (console_error "Status fetch failed" e;; updateStatus E (Bool false) (Num (Int 0))) st
  = (Ok tt,
     set_document (shown_stopped text button indicator stat "0s")
       (set_currentState (fun c =>
          {| isRunning := Bool false; stats := stats c; emails := emails c;
             logs := logs c |})
          (set_console (fun l => l ++ [("Status fetch failed", e)]) st))).
Proof.
  intros Htext Hbutton Hindicator Hstat.
  unfold mbind at 1, M_bind at 1, console_error.
  by erewrite (updateStatus_stopped E _ _ _ text button indicator stat "0s").
Qed.

(** Whatever the answer to a status request and whatever the state it
    finds, on a page that has the four elements [fetchStatus] completes, and
    the page then shows what the flag says. *)
Lemma fetchStatus_resume_outcome (st : state) (r : response)
    (text button indicator stat : handle) :
  status_elements (document st) text button indicator stat →
  ∃ st',
    fetchStatus_resume (bind_constants (document st)) r st = (Ok tt, st')
    ∧ page_skeleton st' = page_skeleton st
    ∧ fetches st' = fetches st
    ∧ timers st' = timers st
    ∧ (ToBoolean (isRunning (currentState st')) = true →
         displays_running (document st') text button indicator stat)
    ∧ (ToBoolean (isRunning (currentState st')) = false →
         displays_stopped (document st') text button indicator).
Proof.
  intros Hel. pose proof Hel as (Htext & Hbutton & Hindicator & Hstat).
  set (E := bind_constants (document st)).
  assert (∀ st1 e, page_skeleton st1 = page_skeleton st →
            fetches st1 = fetches st → timers st1 = timers st →
            ∃ st',
              (console_error "Status fetch failed" e;;
               updateStatus E (Bool false) (Num (Int 0))) st1 = (Ok tt, st')
              ∧ page_skeleton st' = page_skeleton st
              ∧ fetches st' = fetches st
              ∧ timers st' = timers st
              ∧ (ToBoolean (isRunning (currentState st')) = true →
                   displays_running (document st') text button indicator stat)
              ∧ (ToBoolean (isRunning (currentState st')) = false →
                   displays_stopped (document st') text button indicator))
    as Hhandler.
  { intros st1 e Hsk Hf Ht.
    pose proof (status_elements_skeleton _ _ _ _ _ _ Hsk Hel) as Hel1.
    eexists. split.
    { apply (fetchStatus_handler E st1 e text button indicator stat); try done.
      apply Hel1. }
    cbn. split_and!; try done.
    - unfold page_skeleton in *. cbn. rewrite <-Hsk.
      unfold shown_stopped. rewrite !skeleton_alter; auto with keeps.
    - intros _. by apply shown_stopped_displays. }
  unfold fetchStatus_resume.
  destruct (fetchStatus_body E r st) as [[e Hbody]|(running & uptime & Hbody)].
  { rewrite (try_catch_Throw _ _ _ _ _ Hbody). by apply Hhandler. }
  destruct (formatUptime uptime) as [up|e] eqn:Hup.
  - destruct (ToBoolean running) eqn:Hrunning.
    + rewrite (updateStatus_running E st running uptime text button indicator stat up)
        in Hbody by done.
      rewrite (try_catch_Ok _ _ _ _ _ Hbody).
      eexists. split; [done|]. cbn. split_and!; try done.
      * unfold page_skeleton. cbn.
        unfold shown_running. rewrite !skeleton_alter; auto with keeps.
      * intros _. by apply shown_running_displays.
      * congruence.
    + rewrite (updateStatus_stopped E st running uptime text button indicator stat up)
        in Hbody by done.
      rewrite (try_catch_Ok _ _ _ _ _ Hbody).
      eexists. split; [done|]. cbn. split_and!; try done.
      * unfold page_skeleton. cbn.
        unfold shown_stopped. rewrite !skeleton_alter; auto with keeps.
      * congruence.
      * intros _. by apply shown_stopped_displays.
  - rewrite (updateStatus_throws E st running uptime text button indicator e) in Hbody
      by done.
    rewrite (try_catch_Throw _ _ _ _ _ Hbody).
    apply Hhandler; [|done..].
    unfold page_skeleton. cbn. destruct (ToBoolean running); [done|].
    apply half_stopped_skeleton.
Qed.



(** [updateStatus] on a page that lacks one of the four elements: it throws,
    having written the flag. *)
Lemma updateStatus_missing (st : state) (running uptime : value) :
  (¬ ∃ text button indicator stat,
       status_elements (document st) text button indicator stat) →
  ∃ e st',
    updateStatus (bind_constants (document st)) running uptime st = (Throw e, st')
    ∧ (e = TypeError ∨ formatUptime uptime = Throw e)
    ∧ page_skeleton st' = page_skeleton st
    ∧ isRunning (currentState st') = running
    ∧ console st' = console st.
Proof.
  intros Hmissing.
  assert (∀ text button indicator stat,
            find_id "status-text" (document st) = Some text →
            find_id "toggle-btn" (document st) = Some button →
            find_id "status-indicator" (document st) = Some indicator →
            find_id "stat-uptime" (document st) = Some stat → False) as Hnot.
  { intros text button indicator stat ? ? ? ?. apply Hmissing.
    by exists text, button, indicator, stat. }
  clear Hmissing.
  unfold updateStatus, bind_constants, statusText, toggleBtn, statusIndicator.
  unfold mbind, M_bind, getElementById, lift, set_textContent, classList_add,
    classList_remove, classList_replace, on_element, throw, write_isRunning.
  destruct (ToBoolean running), (formatUptime uptime) as [up|e] eqn:Hup,
    (find_id "status-text" (document st)) as [text|] eqn:Htext,
    (find_id "status-indicator" (document st)) as [indicator|] eqn:Hindicator,
    (find_id "toggle-btn" (document st)) as [button|] eqn:Hbutton;
    cbn;
    rewrite ?find_id_alter by auto with keeps;
    try (destruct (find_id "stat-uptime" (document st)) as [stat|] eqn:Hstat;
         [by destruct (Hnot text button indicator stat)|]);
    eexists _, _; (split; [reflexivity|]); cbn;
    (split; [by (left + right)|]);
    unfold page_skeleton; cbn;
    rewrite ?skeleton_alter by auto with keeps; done.
Qed.

(** X4. On a page that lacks one of the four elements [updateStatus] writes
    to, [fetchStatus] ends in a [TypeError] that nothing catches, whatever
    the answer: the [catch] block calls [updateStatus] itself.  The error of
    the [try] block has been logged by then and the flag is [false]. *)
Theorem fetchStatus_throws_on_missing_element (st : state) (r : response) :
  (¬ ∃ text button indicator stat,
       status_elements (document st) text button indicator stat) →
  ∃ st' e,
    fetchStatus_resume (bind_constants (document st)) r st = (Throw TypeError, st')
    ∧ isRunning (currentState st') = Bool false
    ∧ console st' = console st ++ [("Status fetch failed", e)].
Proof.
  intros Hmissing.
  set (E := bind_constants (document st)).
  assert (∀ st1 e, page_skeleton st1 = page_skeleton st → console st1 = console st →
            ∃ st',
              (console_error "Status fetch failed" e;;
               updateStatus E (Bool false) (Num (Int 0))) st1 = (Throw TypeError, st')
              ∧ isRunning (currentState st') = Bool false
              ∧ console st' = console st ++ [("Status fetch failed", e)]) as Hhandler.
  { intros st1 e Hsk Hconsole.
    set (st2 := set_console (fun l => l ++ [("Status fetch failed", e)]) st1).
    destruct (updateStatus_missing st2 (Bool false) (Num (Int 0)))
      as (e' & st' & Hrun & He' & _ & Hflag & Hc).
    { intros (text & button & indicator & stat & Hel). apply Hmissing.
      exists text, button, indicator, stat.
      eapply status_elements_skeleton; [|exact Hel]. by symmetry. }
    assert (bind_constants (document st2) = E) as HE
      by by apply bind_constants_skeleton.
    rewrite HE in Hrun.
    destruct He' as [->|?]; [|done].
    exists st'. unfold mbind, M_bind, console_error. fold st2. rewrite Hrun.
    split_and!; [done..|]. by rewrite Hc; cbn; rewrite Hconsole. }
  unfold fetchStatus_resume.
  destruct (fetchStatus_body E r st) as [[e Hbody]|(running & uptime & Hbody)].
  - rewrite (try_catch_Throw _ _ _ _ _ Hbody).
    destruct (Hhandler st e) as (st' & ? & ? & ?); [done..|]. by exists st', e.
  - destruct (updateStatus_missing st running uptime Hmissing)
      as (e & st1 & Hrun & _ & Hsk & _ & Hc).
    fold E in Hrun. rewrite Hrun in Hbody.
    rewrite (try_catch_Throw _ _ _ _ _ Hbody).
    destruct (Hhandler st1 e) as (st' & ? & ? & ?); [done..|]. by exists st', e.
Qed.

(** ** What never throws *)

Lemma try_catch_console_error (body : M unit) (message : string) (st : state) :
  (try_catch body (fun e => console_error message e) st).1 = Ok tt.
Proof. unfold try_catch. by destruct (body st) as [[[]|e] st']. Qed.

(** X5. Whatever the page, the state and the answer, no exception leaves
    [fetchStats], [fetchEmails], [fetchLogs] or [toggleAgent], before the
    [await] or after it, nor the start of [fetchStatus], the listener of the
    refresh button, the [DOMContentLoaded] listener or a due timer: the
    [catch] block of each function only writes to the console. *)
Theorem only_fetchStatus_and_navigation_can_throw (E : bindings) :
  (∀ f st, (start f st).1 = Ok tt)
  ∧ (∀ f r st, f ≠ FetchStatus → (resume E f r st).1 = Ok tt)
  ∧ (∀ st, (refresh_click st).1 = Ok tt)
  ∧ (∀ st, (init st).1 = Ok tt)
  ∧ (∀ i st, (fire i st).1 = Ok tt)
  ∧ (∀ ev st, (∀ r, ev ≠ Answer FetchStatus r) → (∀ item, ev ≠ Click_nav item) →
       (dispatch E ev st).1 = Ok tt).
Proof.
  assert (∀ f st, (start f st).1 = Ok tt) as Hstart by (by intros []).
  assert (∀ f r st, f ≠ FetchStatus → (resume E f r st).1 = Ok tt) as Hresume.
  { intros [] r st Hf; try done; apply try_catch_console_error. }
  assert (∀ i st, (fire i st).1 = Ok tt) as Hfire.
  { intros i st. unfold fire. destruct (timers st !! i); [apply Hstart|done]. }
  split_and!; try done.
  intros [| | |item|i|f r] st Hanswer Hnav; cbn [dispatch]; try done.
  - unfold when. by case_bool_decide.
  - unfold when. by case_bool_decide.
  - by destruct (Hnav item).
  - apply Hresume. intros ->. by destruct (Hanswer r).
Qed.

(** ** Rendering is all or nothing *)

Lemma mapM_result_Ok {A B} (f : A → result B) (l : list A) (k : list B) :
  mapM f l = Ok k ↔ Forall2 (fun x y => f x = Ok y) l k.
Proof.
  revert k. induction l as [|x l IH]; intros k; cbn.
  - split; [intros [= <-]; constructor|by inversion 1].
  - destruct (f x) as [y|e] eqn:Hx; cbn.
    + destruct (mapM f l) as [k'|e] eqn:Hl; cbn.
      * split.
        -- intros [= <-]. constructor; [done|]. by apply IH.
        -- inversion 1 as [|? y' ? k'' Hy Hk]; subst.
           apply IH in Hk. unfold mret, result_ret. congruence.
      * split; [done|]. inversion 1 as [|? y' ? k'' Hy Hk]; subst.
        apply IH in Hk. congruence.
    + split; [done|]. inversion 1; congruence.
Qed.

(** A row is built only for an email whose subject is a string. *)
Lemma renderEmailRow_Ok_subject (e : value) (html : string) :
  renderEmailRow e = Ok html → ∃ s, get e "subject" = Ok (Str s).
Proof.
  unfold renderEmailRow, mbind, result_bind.
  destruct (get e "id") as [id|]; [|done]. destruct (ToString id); [|done].
  destruct (get e "subject") as [[| | | |s| |]|]; try done. eauto.
Qed.

Lemma render_outcome (f : value → result string) (container message : string)
    (r : response) (st : state) :
  (∃ rows htmls target,
     r = Json (Arr rows)
     ∧ Forall2 (fun row html => f row = Ok html) rows htmls
     ∧ find_id container (document st) = Some target
     ∧ (try_catch
          (data ← awaited_json r;
           target ← getElementById container;
           html ← lift (map_join f data);
           set_innerHTML target html)
          (fun e => console_error message e) st).2
       = set_document (alter (with_innerHTML (String.concat "" htmls)) target) st)
  ∨ (∃ e,
       (try_catch
          (data ← awaited_json r;
           target ← getElementById container;
           html ← lift (map_join f data);
           set_innerHTML target html)
          (fun e => console_error message e) st).2
       = set_console (fun l => l ++ [(message, e)]) st).
Proof.
  destruct r as [| |data]; [right; by eexists..|].
  destruct data as [| | | | |rows|]; try (right; by eexists).
  unfold try_catch, mbind, M_bind, getElementById, lift. cbn [awaited_json mret M_ret].
  cbn [map_join mbind result_bind].
  destruct (mapM f rows) as [htmls|e] eqn:Hrows; [|right; by eexists].
  destruct (find_id container (document st)) as [target|] eqn:Htarget;
    [|right; by eexists].
  left. exists rows, htmls, target. split_and!; try done. by apply mapM_result_Ok.
Qed.

(** X6. [fetchEmails] either replaces the markup of the table body by the
    rows of the whole answer, or leaves the page as it was and writes one
    line to the console; it never shows part of an answer.  The second case
    is that of every answer that is no array, and of every array one element
    of which has no string as its subject. *)
Theorem fetchEmails_all_or_nothing (r : response) (st : state) :
  ((∃ rows htmls tbody,
      r = Json (Arr rows)
      ∧ Forall2 (fun row html => renderEmailRow row = Ok html) rows htmls
      ∧ find_id "emails-table-body" (document st) = Some tbody
      ∧ (fetchEmails_resume r st).2
        = set_document (alter (with_innerHTML (String.concat "" htmls)) tbody) st)
   ∨ (∃ e, (fetchEmails_resume r st).2
           = set_console (fun l => l ++ [("Emails fetch failed", e)]) st))
  ∧ ((∀ rows, r ≠ Json (Arr rows)) → document (fetchEmails_resume r st).2 = document st)
  ∧ (∀ rows, r = Json (Arr rows) →
       Exists (fun row => ∀ s, get row "subject" ≠ Ok (Str s)) rows →
       document (fetchEmails_resume r st).2 = document st).
Proof.
  pose proof (render_outcome renderEmailRow "emails-table-body" "Emails fetch failed" r st)
    as Hcases.
  change (try_catch _ _ st) with (fetchEmails_resume r st) in Hcases.
  split_and!; [done| |].
  - intros Hr. destruct Hcases as [(rows & _ & _ & -> & _)|[e ->]]; [|done].
    by destruct (Hr rows).
  - intros rows -> Hbad.
    destruct Hcases as [(rows' & htmls & tbody & [= <-] & Hrows & _)|[e ->]]; [|done].
    exfalso. apply Exists_exists in Hbad as (row & Hin & Hsubject).
    apply list_elem_of_lookup in Hin as [i Hi].
    destruct (Forall2_lookup_l _ _ _ _ _ Hrows Hi) as (html & _ & Hrow).
    apply renderEmailRow_Ok_subject in Hrow as [s Hs]. by destruct (Hsubject s).
Qed.

(** X7. [fetchLogs] either replaces the markup of the logs container by the
    items of the whole answer, or leaves the page as it was and writes one
    line to the console.  An item needs no member at all: of an object whose
    members are no arrays and no objects, each slot shows the member as text,
    an absent member reading [undefined]. *)
Theorem fetchLogs_all_or_nothing (r : response) (st : state) :
  ((∃ rows htmls container,
      r = Json (Arr rows)
      ∧ Forall2 (fun row html => renderLogItem row = Ok html) rows htmls
      ∧ find_id "logs-list" (document st) = Some container
      ∧ (fetchLogs_resume r st).2
        = set_document (alter (with_innerHTML (String.concat "" htmls)) container) st)
   ∨ (∃ e, (fetchLogs_resume r st).2
           = set_console (fun l => l ++ [("Logs fetch failed", e)]) st))
  ∧ ((∀ rows, r ≠ Json (Arr rows)) → document (fetchLogs_resume r st).2 = document st)
  ∧ (∀ members, (∀ k v, own_property k members = Some v → primitive v) →
       ∃ created_at email_id intent agent_action,
         ToString (default Undefined (own_property "created_at" members)) = Ok created_at
         ∧ ToString (default Undefined (own_property "email_id" members)) = Ok email_id
         ∧ ToString (default Undefined (own_property "intent" members)) = Ok intent
         ∧ ToString (default Undefined (own_property "agent_action" members))
           = Ok agent_action
         ∧ renderLogItem (Obj members) =
             Ok (line 8 "<div class=" +:+ dquote +:+ "log-item" +:+ dquote +:+ ">"
                 +:+ line 12 "<div class=" +:+ dquote +:+ "log-header" +:+ dquote +:+ ">"
                 +:+ line 16 "<span>" +:+ created_at +:+ "</span>"
                 +:+ line 16 "<span>ID: " +:+ email_id +:+ "</span>"
                 +:+ line 12 "</div>"
                 +:+ line 12 "<div class=" +:+ dquote +:+ "log-content" +:+ dquote +:+ ">"
                 +:+ line 16 "<strong>Intent:</strong> " +:+ intent +:+ " <br>"
                 +:+ line 16 "<strong>Action:</strong> " +:+ agent_action
                 +:+ line 12 "</div>"
                 +:+ line 8 "</div>"
                 +:+ line 4 ""))
  ∧ (∀ members k, own_property k members = None →
       ToString (default Undefined (own_property k members)) = Ok "undefined").
Proof.
  pose proof (render_outcome renderLogItem "logs-list" "Logs fetch failed" r st)
    as Hcases.
  change (try_catch _ _ st) with (fetchLogs_resume r st) in Hcases.
  split_and!; [done| | |by intros members k ->].
  - intros Hr. destruct Hcases as [(rows & _ & _ & -> & _)|[e ->]]; [|done].
    by destruct (Hr rows).
  - intros members Hall.
    destruct (ToString_primitive _ (member_primitive members "created_at" Hall))
      as [created_at Hc].
    destruct (ToString_primitive _ (member_primitive members "email_id" Hall))
      as [email_id He].
    destruct (ToString_primitive _ (member_primitive members "intent" Hall))
      as [intent Hi].
    destruct (ToString_primitive _ (member_primitive members "agent_action" Hall))
      as [agent_action Ha].
    exists created_at, email_id, intent, agent_action. split_and!; try done.
    unfold renderLogItem, get. cbn [mbind result_bind]. by rewrite Hc, He, Hi, Ha.
Qed.

(** ** The other cells of a row *)

(** X8. The tag of a row.  For an email whose subject is a string and whose
    members are no arrays and no objects, the [span] of the row has the class
    [getPriorityClass] gives for the score, and shows the priority label, or
    [Unknown] when the label is falsy.  An email without a label therefore
    shows [Unknown], and an email without a score gets the class [low]. *)
Theorem renderEmailRow_tag (members : list (string * value)) (subject : string) :
  own_property "subject" members = Some (Str subject) →
  (∀ k v, own_property k members = Some v → primitive v) →
  ∃ id sender class label task_status next_action,
    renderEmailRow (Obj members) =
      Ok (line 8 "<tr>"
          +:+ line 12 "<td>#" +:+ id +:+ "</td>"
          +:+ line 12 "<td>" +:+ substring 0 40 subject +:+ "...</td>"
          +:+ line 12 "<td>" +:+ sender +:+ "</td>"
          +:+ line 12 "<td><span class=" +:+ dquote +:+ "tag " +:+ class +:+ dquote
          +:+ ">" +:+ label +:+ "</span></td>"
          +:+ line 12 "<td>" +:+ task_status +:+ "</td>"
          +:+ line 12 "<td>" +:+ next_action +:+ "</td>"
          +:+ line 8 "</tr>"
          +:+ line 4 "")
    ∧ getPriorityClass (member members "priority_score") = Ok class
    ∧ (class = "high" ∨ class = "medium" ∨ class = "low")
    ∧ (ToBoolean (member members "priority_label") = false → label = "Unknown")
    ∧ (ToBoolean (member members "priority_label") = true →
         ToString (member members "priority_label") = Ok label)
    ∧ (own_property "priority_label" members = None → label = "Unknown")
    ∧ (own_property "priority_score" members = None → class = "low").
Proof.
  intros Hsubject Hall.
  unfold renderEmailRow, get. cbn [mbind result_bind].
  rewrite Hsubject. cbn [default substring_method].
  destruct (ToString_primitive _ (member_primitive members "id" Hall)) as [id ->].
  destruct (ToString_primitive _ (member_primitive members "sender" Hall))
    as [sender ->].
  destruct (getPriorityClass_primitive _ (member_primitive members "priority_score" Hall))
    as [class Hclass].
  destruct (ToString_primitive _ (member_primitive members "task_status" Hall))
    as [task_status ->].
  destruct (ToString_primitive _ (member_primitive members "next_action" Hall))
    as [next_action ->].
  pose proof (member_primitive members "priority_label" Hall) as Hlabel.
  destruct (ToString_primitive
              (if ToBoolean (default Undefined (own_property "priority_label" members))
               then default Undefined (own_property "priority_label" members)
               else Str "Unknown")) as [label Hshown]; [by case_match|].
  rewrite Hclass, Hshown.
  exists id, sender, class, label, task_status, next_action.
  unfold member. split_and!; try done.
  - unfold getPriorityClass in Hclass.
    destruct (ToNumber _) as [n|]; [|done]. cbn in Hclass.
    repeat case_match; naive_solver.
  - intros Hfalsy. rewrite Hfalsy in Hshown. by injection Hshown.
  - intros Htruthy. by rewrite Htruthy in Hshown.
  - intros Hnone. rewrite Hnone in Hshown. by injection Hshown.
  - intros Hnone. rewrite Hnone in Hclass. by injection Hclass.
Qed.

(** ** The counters *)


(** ** What the script sends and schedules *)

Section Steps.

Context (R : state → state → Prop) `{!Reflexive R, !Transitive R}.

Lemma steps_ret {A} (a : A) : steps R (mret a).
Proof. intros st. reflexivity. Qed.

Lemma steps_throw {A} (e : error) : steps R (@throw A e).
Proof. intros st. reflexivity. Qed.

Lemma steps_bind {A B} (m : M A) (f : A → M B) :
  steps R m → (∀ a, steps R (f a)) → steps R (m ≫= f).
Proof.
  intros Hm Hf st. unfold mbind, M_bind.
  specialize (Hm st). destruct (m st) as [[a|e] st']; cbn in *; [|done].
  etrans; [exact Hm|apply Hf].
Qed.

Lemma steps_try_catch {A} (body : M A) (handler : error → M A) :
  steps R body → (∀ e, steps R (handler e)) → steps R (try_catch body handler).
Proof.
  intros Hm Hf st. unfold try_catch.
  specialize (Hm st). destruct (body st) as [[a|e] st']; cbn in *; [done|].
  etrans; [exact Hm|apply Hf].
Qed.

Lemma steps_when (b : bool) (m : M unit) : steps R m → steps R (when b m).
Proof. destruct b; [done|]. intros _ st. reflexivity. Qed.

End Steps.

#[local] Instance sent_known_refl : Reflexive sent_known.
Proof. intros st. exists []. by rewrite app_nil_r. Qed.

#[local] Instance sent_known_trans : Transitive sent_known.
Proof.
  intros st1 st2 st3 (l1 & H1 & Hl1) (l2 & H2 & Hl2).
  exists (l1 ++ l2). split; [by rewrite H2, H1, app_assoc|by apply Forall_app].
Qed.

#[local] Instance timers_stay_known_refl : Reflexive timers_stay_known.
Proof. intros st Hst. exact Hst. Qed.

#[local] Instance timers_stay_known_trans : Transitive timers_stay_known.
Proof. intros st1 st2 st3 H1 H2 Hst. by apply H2, H1. Qed.

Lemma steps_sent_known_keeps {A} (m : M A) : keeps fetches m → steps sent_known m.
Proof. intros Hm st. exists []. by rewrite Hm, app_nil_r. Qed.

Lemma steps_timers_keeps {A} (m : M A) : keeps timers m → steps timers_stay_known m.
Proof. intros Hm st. unfold timers_stay_known. by rewrite Hm. Qed.

Lemma fetch_sent_known (f : async_fn) (m : http_method) (u : string) :
  (f, {| method := m; url := u |}) ∈ known_requests → steps sent_known (fetch f m u).
Proof. intros Hin st. eexists. split; [reflexivity|]. by constructor. Qed.

Lemma timer_stays_known (f : async_fn) (ms : Z) :
  {| callback := f; delay := ms; repeating := false |} ∈ known_timers →
  steps timers_stay_known (setTimeout f ms).
Proof. intros Hin st Hst. cbn. apply Forall_app. split; [done|]. by constructor. Qed.

Lemma interval_stays_known (f : async_fn) (ms : Z) :
  {| callback := f; delay := ms; repeating := true |} ∈ known_timers →
  steps timers_stay_known (setInterval f ms).
Proof. intros Hin st Hst. cbn. apply Forall_app. split; [done|]. by constructor. Qed.

Lemma keeps_write_isRunning {X} (π : state → X) (v : value) :
  (∀ g st, π (set_currentState g st) = π st) → keeps π (write_isRunning v).
Proof. intros Hπ st. apply Hπ. Qed.

Section History.

Variable E : bindings.

Lemma keeps_fetches_updateStatus (running uptime : value) :
  keeps fetches (updateStatus E running uptime).
Proof. unfold updateStatus. eauto 40 using keeps_write_isRunning with keeps. Qed.

Lemma keeps_timers_updateStatus (running uptime : value) :
  keeps timers (updateStatus E running uptime).
Proof. unfold updateStatus. eauto 40 using keeps_write_isRunning with keeps. Qed.

(** A block that sends nothing, or registers nothing. *)
Ltac keeps_history :=
  solve [ unfold fetchStatus_resume, fetchStats_resume, fetchEmails_resume,
            fetchLogs_resume, toggleAgent_resume, renderEmails, renderLogs,
            assign_textContent, fetchStatus_start, fetchStats_start, fetchEmails_start,
            fetchLogs_start, toggleAgent_start;
          eauto 40 using keeps_write_isRunning, keeps_fetches_updateStatus,
            keeps_timers_updateStatus with keeps ].

Ltac steps_history :=
  repeat first
    [ apply steps_sent_known_keeps; keeps_history
    | apply steps_timers_keeps; keeps_history
    | apply fetch_sent_known; apply (bool_decide_unpack _); vm_compute; exact I
    | apply timer_stays_known; apply (bool_decide_unpack _); vm_compute; exact I
    | apply interval_stays_known; apply (bool_decide_unpack _); vm_compute; exact I
    | apply steps_when; [apply _|]
    | apply steps_bind; [apply _| |intros ?]
    | apply steps_try_catch; [apply _| |intros ?] ].

Lemma toggleAgent_resume_keeps_fetches (r : response) :
  keeps fetches (toggleAgent_resume r).
Proof. intros st. by destruct r. Qed.

Lemma toggleAgent_resume_timers (r : response) :
  steps timers_stay_known (toggleAgent_resume r).
Proof.
  intros st Hst. destruct r; cbn; try done;
    (apply Forall_app; split; [done|constructor; [|done]]);
    by apply (bool_decide_unpack _).
Qed.

Lemma toggleAgent_start_sent_known : steps sent_known toggleAgent_start.
Proof.
  intros st. unfold toggleAgent_start, mbind, M_bind, read_isRunning, fetch.
  eexists. split; [reflexivity|]. constructor; [|done].
  destruct (ToBoolean _); by apply (bool_decide_unpack _).
Qed.

Lemma start_sent_known (f : async_fn) : steps sent_known (start f).
Proof.
  destruct f; cbn [start]; try apply toggleAgent_start_sent_known;
    unfold fetchStatus_start, fetchStats_start, fetchEmails_start, fetchLogs_start;
    steps_history.
Qed.

Lemma start_keeps_timers (f : async_fn) : keeps timers (start f).
Proof. by destruct f. Qed.

Lemma resume_keeps_fetches (f : async_fn) (r : response) : keeps fetches (resume E f r).
Proof.
  destruct f; cbn [resume]; try apply toggleAgent_resume_keeps_fetches; keeps_history.
Qed.

Lemma resume_timers (f : async_fn) (r : response) :
  steps timers_stay_known (resume E f r).
Proof.
  destruct f; cbn [resume]; try apply toggleAgent_resume_timers;
    apply steps_timers_keeps; keeps_history.
Qed.

Lemma nav_click_sent_known (item : handle) : steps sent_known (nav_click E item).
Proof. unfold nav_click, fetchEmails_start, fetchLogs_start. steps_history. Qed.

Lemma nav_click_keeps_timers (item : handle) : keeps timers (nav_click E item).
Proof. unfold nav_click. keeps_history. Qed.

Lemma dispatch_sent_known (ev : event) : steps sent_known (dispatch E ev).
Proof.
  destruct ev as [| | |item|i|f r]; cbn [dispatch].
  - unfold init, fetchStatus_start, fetchStats_start. steps_history.
  - apply steps_when; [apply _|]. apply toggleAgent_start_sent_known.
  - unfold refresh_click, fetchStats_start, fetchEmails_start, fetchLogs_start.
    steps_history.
  - apply steps_when; [apply _|]. apply nav_click_sent_known.
  - intros st. unfold fire. destruct (timers st !! i) as [t|]; [|reflexivity].
    destruct (start_sent_known (callback t)
                (if repeating t then st else set_timers (delete i) st)) as (l & Hl & Hk).
    exists l. split; [|done]. rewrite Hl. by destruct (repeating t).
  - apply steps_sent_known_keeps, resume_keeps_fetches.
Qed.

Lemma dispatch_timers (ev : event) : steps timers_stay_known (dispatch E ev).
Proof.
  destruct ev as [| | |item|i|f r]; cbn [dispatch].
  - unfold init, fetchStatus_start, fetchStats_start. steps_history.
  - apply steps_when; [apply _|]. apply steps_timers_keeps. keeps_history.
  - apply steps_when; [apply _|]. apply steps_timers_keeps.
    unfold refresh_click. keeps_history.
  - apply steps_when; [apply _|]. apply steps_timers_keeps, nav_click_keeps_timers.
  - intros st Hst. unfold fire. destruct (timers st !! i) as [t|]; [|done].
    rewrite start_keeps_timers. destruct (repeating t); [done|]. cbn.
    rewrite Forall_forall in Hst. apply Forall_forall. intros x Hx.
    by eapply Hst, list_elem_of_delete_inv.
  - apply resume_timers.
Qed.

Lemma run_sent_known (evs : list event) (st : state) : sent_known st (run E evs st).
Proof.
  revert st. induction evs as [|ev evs IH]; intros st; [reflexivity|].
  cbn. etrans; [apply dispatch_sent_known|]. apply IH.
Qed.

Lemma run_timers (evs : list event) (st : state) : timers_stay_known st (run E evs st).
Proof.
  revert st. induction evs as [|ev evs IH]; intros st; [reflexivity|].
  cbn. etrans; [apply dispatch_timers|]. apply IH.
Qed.

(** X10. Along any run the script sends only the six requests it knows:
    the four GETs for the status, the stats, the emails and the logs, and the
    POSTs to start and to stop the agent.  A POST comes from [toggleAgent]
    alone.  The record of what was sent only grows. *)
Theorem requests_are_known (evs : list event) (doc : list element) :
  Forall (fun fr => fr ∈ known_requests) (fetches (run E evs (loaded doc)))
  ∧ (∀ f u, (f, {| method := POST; url := u |}) ∈ fetches (run E evs (loaded doc)) →
       f = ToggleAgent
       ∧ (u = "http://localhost:8000/control/start"
          ∨ u = "http://localhost:8000/control/stop"))
  ∧ (∀ ev st, fetches st `prefix_of` fetches (dispatch E ev st).2).
Proof.
  assert (Forall (fun fr => fr ∈ known_requests) (fetches (run E evs (loaded doc))))
    as Hknown.
  { destruct (run_sent_known evs (loaded doc)) as (l & -> & Hl). done. }
  split_and!; [done| |].
  - intros f u Hin. rewrite Forall_forall in Hknown. specialize (Hknown _ Hin).
    unfold known_requests in Hknown. rewrite !elem_of_cons in Hknown.
    rewrite elem_of_nil in Hknown. naive_solver.
  - intros ev st. destruct (dispatch_sent_known ev st) as (l & -> & _).
    by apply prefix_app_r.
Qed.

(** X11. Along any run the timers registered are the two polls, of the
    status every 2000 ms and of the stats every 5000 ms, and the follow-up of
    a toggle, once after 500 ms.  So a timer only ever calls [fetchStatus] or
    [fetchStats]: none toggles the agent, none fetches emails or logs. *)
Theorem timers_are_known (evs : list event) (doc : list element) :
  Forall (fun t => t ∈ known_timers) (timers (run E evs (loaded doc)))
  ∧ (∀ t, t ∈ timers (run E evs (loaded doc)) →
       callback t = FetchStatus ∨ callback t = FetchStats).
Proof.
  assert (Forall (fun t => t ∈ known_timers) (timers (run E evs (loaded doc))))
    as Hknown by (by apply (run_timers evs (loaded doc))).
  split; [done|].
  intros t Hin. rewrite Forall_forall in Hknown. specialize (Hknown _ Hin).
  unfold known_timers in Hknown. rewrite !elem_of_cons in Hknown.
  rewrite elem_of_nil in Hknown. naive_solver.
Qed.

#[local] Instance intervals_stay_refl : Reflexive intervals_stay.
Proof. by intros st t. Qed.

#[local] Instance intervals_stay_trans : Transitive intervals_stay.
Proof. intros st1 st2 st3 H1 H2 t Ht Hin. by apply H2, H1. Qed.

Lemma steps_intervals_keeps {A} (m : M A) : keeps timers m → steps intervals_stay m.
Proof. intros Hm st t Ht. by rewrite Hm. Qed.

Lemma elem_of_delete_other {A} (l : list A) (i : nat) (x y : A) :
  l !! i = Some y → x ≠ y → x ∈ l → x ∈ delete i l.
Proof.
  intros Hi Hne [j Hj]%list_elem_of_lookup. apply list_elem_of_lookup.
  destruct (decide (j < i)) as [Hlt|Hge].
  - exists j. by rewrite list_lookup_delete_lt.
  - destruct j as [|j]; [assert (i = 0) as -> by lia; congruence|].
    destruct (decide (S j = i)) as [<-|]; [congruence|].
    exists j. rewrite list_lookup_delete_ge by lia. done.
Qed.

Lemma dispatch_intervals_stay (ev : event) : steps intervals_stay (dispatch E ev).
Proof.
  destruct ev as [| | |item|i|f r]; cbn [dispatch].
  - intros st t Ht Hin. change (timers (init st).2) with
      ((timers st ++ [{| callback := FetchStatus; delay := 2000; repeating := true |}])
         ++ [{| callback := FetchStats; delay := 5000; repeating := true |}]).
    rewrite !elem_of_app. by left; left.
  - apply steps_when; [apply _|]. apply steps_intervals_keeps. keeps_history.
  - apply steps_when; [apply _|]. apply steps_intervals_keeps.
    unfold refresh_click. keeps_history.
  - apply steps_when; [apply _|]. apply steps_intervals_keeps, nav_click_keeps_timers.
  - intros st t Ht Hin. unfold fire. destruct (timers st !! i) as [t'|] eqn:Hi; [|done].
    rewrite start_keeps_timers. destruct (repeating t') eqn:Ht'; [done|]. cbn.
    apply (elem_of_delete_other _ _ _ t'); [done| |done]. congruence.
  - destruct f; cbn [resume];
      try (apply steps_intervals_keeps; keeps_history).
    intros st t Ht Hin. destruct r; cbn; try done; apply elem_of_app; by left.
Qed.

Lemma run_intervals_stay (evs : list event) (st : state) :
  intervals_stay st (run E evs st).
Proof.
  revert st. induction evs as [|ev evs IH]; intros st; [reflexivity|].
  cbn. etrans; [apply dispatch_intervals_stay|]. apply IH.
Qed.

(** X17. Polling never stops.  Once [DOMContentLoaded] has been handled, the
    two intervals, of the status every 2000 ms and of the stats every
    5000 ms, are among the timers after any further events, in whatever
    state the script was; no event takes an interval away, and an interval
    that fires leaves the timers as they were. *)
Theorem polling_never_stops (evs : list event) (st : state) :
  {| callback := FetchStatus; delay := 2000; repeating := true |}
    ∈ timers (run E (DOMContentLoaded :: evs) st)
  ∧ {| callback := FetchStats; delay := 5000; repeating := true |}
    ∈ timers (run E (DOMContentLoaded :: evs) st)
  ∧ (∀ ev st0 t, repeating t = true → t ∈ timers st0 →
       t ∈ timers (dispatch E ev st0).2)
  ∧ (∀ i st0 t, timers st0 !! i = Some t → repeating t = true →
       timers (fire i st0).2 = timers st0).
Proof.
  split_and!.
  - apply (run_intervals_stay evs); [done|].
    change (timers (dispatch E DOMContentLoaded st).2) with
      ((timers st ++ [{| callback := FetchStatus; delay := 2000; repeating := true |}])
         ++ [{| callback := FetchStats; delay := 5000; repeating := true |}]).
    rewrite !elem_of_app, !list_elem_of_singleton. by left; right.
  - apply (run_intervals_stay evs); [done|].
    change (timers (dispatch E DOMContentLoaded st).2) with
      ((timers st ++ [{| callback := FetchStatus; delay := 2000; repeating := true |}])
         ++ [{| callback := FetchStats; delay := 5000; repeating := true |}]).
    rewrite !elem_of_app, !list_elem_of_singleton. by right.
  - intros ev st0 t. apply dispatch_intervals_stay.
  - intros i st0 t Hi Ht. unfold fire. by rewrite Hi, start_keeps_timers, Ht.
Qed.

End History.

(** ** Navigation, further *)

Lemma filter_none (P : handle → Prop) `{∀ h, Decision (P h)} (l : list handle) :
  (∀ y, y ∈ l → ¬ P y) → filter P l = [].
Proof.
  intros HP. destruct (filter P l) as [|z rest] eqn:Hfilter; [done|].
  assert (z ∈ filter P l) as [HPz Hz]%list_elem_of_filter by (rewrite Hfilter; left).
  by destruct (HP z).
Qed.

(** X12. A navigation item whose target names no element: the click marks
    the item as the active one, takes [active] off every page, and then
    throws a [TypeError]; the title and every other text stay as they were
    and nothing is fetched.  This is the case of an item without a
    [data-target] on a page where no element is called [undefined]. *)
Theorem nav_click_dangling_target (st : state) (item : handle) (e : element) :
  item ∈ navItems (bind_constants (document st)) →
  item ∉ pages (bind_constants (document st)) →
  document st !! item = Some e →
  find_id (default "undefined" (dataset_target e)) (document st) = None →
  ∃ st',
    nav_click (bind_constants (document st)) item st = (Throw TypeError, st')
    ∧ active (document st') (navItems (bind_constants (document st))) = [item]
    ∧ active (document st') (pages (bind_constants (document st))) = []
    ∧ (∀ h, textContent <$> document st' !! h = textContent <$> document st !! h)
    ∧ fetches st' = fetches st.
Proof.
  intros Hitem Hnot_page He Hnone.
  set (E := bind_constants (document st)) in *.
  set (doc1 := remove_all "active" (navItems E) (document st)).
  set (doc2 := alter (with_classList (token_add "active")) item doc1).
  set (doc3 := remove_all "active" (pages E) doc2).
  assert (dataset_target <$> doc2 !! item = Some (dataset_target e)) as Hdoc2.
  { unfold doc2, doc1.
    rewrite lookup_alter_with_classList, lookup_remove_all, He by done. done. }
  assert (skeleton <$> doc3 = skeleton <$> document st) as Hsk.
  { unfold doc3, doc2, doc1.
    rewrite skeleton_remove_all, skeleton_alter, skeleton_remove_all; try done.
    intros x. by apply with_classList_add_skeleton. }
  destruct (doc2 !! item) as [e2|] eqn:He2; [|done].
  injection Hdoc2 as Htarget.
  exists (set_document (fun _ => doc3) st). split_and!.
  - unfold nav_click.
    step_bind. rewrite forEach_classList_remove.
    step_bind.
    step_bind. fold doc1 doc2. rewrite He2, Htarget.
    step_bind. rewrite forEach_classList_remove.
    step_bind. fold doc1 doc2 doc3. rewrite (find_id_skeleton _ _ _ Hsk), Hnone.
    step_bind. by destruct st.
  - change (document (set_document (fun _ => doc3) st)) with doc3.
    apply filter_singles_out; [apply select_NoDup|done|].
    intros h Hh.
    change (from_option (has_class "active") false (doc3 !! h))
      with (carries "active" doc3 h).
    unfold doc3, doc2, doc1. rewrite carries_remove_all.
    destruct (decide (h ∈ pages E)) as [Hpage|Hpage].
    { split; [done|]. intros ->. done. }
    destruct (decide (h = item)) as [->|Hne].
    { rewrite carries_add; [done|].
      rewrite length_remove_all. by eapply lookup_lt_Some. }
    rewrite carries_alter_ne, carries_remove_all by done.
    by rewrite decide_True.
  - change (document (set_document (fun _ => doc3) st)) with doc3.
    apply filter_none. intros h Hh.
    change (from_option (has_class "active") false (doc3 !! h))
      with (carries "active" doc3 h).
    unfold doc3. rewrite carries_remove_all, decide_True by done. by intros [].
  - intros h. change (document (set_document (fun _ => doc3) st)) with doc3.
    unfold doc3, doc2, doc1.
    by rewrite lookup_remove_all, lookup_alter_with_classList, lookup_remove_all.
  - done.
Qed.

(** X13. What a click on a navigation item fetches.  When the listener runs
    to its end (the item names an element and the title is there), it sends
    one request for the emails if the target of the item is [emails], one for
    the logs if it is [logs], and none for any other target; it registers no
    timer and writes nothing to the console. *)
Theorem nav_click_fetches (E : bindings) (st : state) (item p title : handle)
    (e : element) :
  document st !! item = Some e →
  find_id (default "undefined" (dataset_target e)) (document st) = Some p →
  pageTitle E = Some title →
  ∃ st',
    nav_click E item st = (Ok tt, st')
    ∧ (dataset_target e = Some "emails" →
         fetches st' = fetches st ++ [(FetchEmails,
           {| method := GET; url := "http://localhost:8000/emails?limit=50" |})])
    ∧ (dataset_target e = Some "logs" →
         fetches st' = fetches st ++ [(FetchLogs,
           {| method := GET; url := "http://localhost:8000/logs?limit=50" |})])
    ∧ (dataset_target e ≠ Some "emails" → dataset_target e ≠ Some "logs" →
         fetches st' = fetches st)
    ∧ timers st' = timers st
    ∧ console st' = console st.
Proof.
  intros Hitem Hpage Htitle.
  set (doc1 := remove_all "active" (navItems E) (document st)).
  set (doc2 := alter (with_classList (token_add "active")) item doc1).
  set (doc3 := remove_all "active" (pages E) doc2).
  set (doc4 := alter (with_classList (token_add "active")) p doc3).
  assert (∀ A (g : element → A), (∀ f x, g (with_classList f x) = g x) →
            g <$> doc2 !! item = Some (g e)) as Hdoc2.
  { intros A g Hg. unfold doc2, doc1.
    rewrite lookup_alter_with_classList, lookup_remove_all, Hitem by done. done. }
  assert (∀ A (g : element → A), (∀ f x, g (with_classList f x) = g x) →
            g <$> doc4 !! item = Some (g e)) as Hdoc4.
  { intros A g Hg. unfold doc4, doc3.
    rewrite lookup_alter_with_classList, lookup_remove_all by done. by apply Hdoc2. }
  assert (skeleton <$> doc3 = skeleton <$> document st) as Hsk.
  { unfold doc3, doc2, doc1.
    rewrite skeleton_remove_all, skeleton_alter, skeleton_remove_all; try done.
    intros x. by apply with_classList_add_skeleton. }
  specialize (Hdoc2 _ dataset_target ltac:(done)).
  specialize (Hdoc4 _ textContent ltac:(done)).
  destruct (doc2 !! item) as [e2|] eqn:He2; [|done].
  destruct (doc4 !! item) as [e4|] eqn:He4; [|done].
  injection Hdoc2 as Htarget. injection Hdoc4 as Htext.
  unfold nav_click.
  step_bind. rewrite forEach_classList_remove.
  step_bind.
  step_bind. fold doc1 doc2. rewrite He2, Htarget.
  step_bind. rewrite forEach_classList_remove.
  step_bind. fold doc1 doc2 doc3. rewrite (find_id_skeleton _ _ _ Hsk), Hpage.
  step_bind.
  step_bind. fold doc1 doc2 doc3 doc4. rewrite He4, Htext.
  step_bind. rewrite Htitle. step_bind.
  unfold mbind, M_bind, when, fetchEmails_start, fetchLogs_start, fetch.
  repeat case_bool_decide; eexists; (split; [reflexivity|]); cbn;
    split_and!; try done; congruence.
Qed.

(** ** The priority class, further *)

(** X14. [getPriorityClass] names no class but [high], [medium] and [low],
    whatever it is given; a score that is missing, [null] or a boolean is
    [low]; and only an array or an object for a score can make it throw. *)
Theorem getPriorityClass_classes (v : value) :
  (∀ c, getPriorityClass v = Ok c → c = "high" ∨ c = "medium" ∨ c = "low")
  ∧ (∀ e, getPriorityClass v = Throw e → ¬ primitive v)
  ∧ (∀ members, own_property "priority_score" members = None →
       (score ← get (Obj members) "priority_score"; getPriorityClass score) = Ok "low")
  ∧ getPriorityClass Null = Ok "low"
  ∧ (∀ b, getPriorityClass (Bool b) = Ok "low").
Proof.
  split_and!.
  - unfold getPriorityClass. destruct (ToNumber v) as [n|e]; cbn; [|done].
    intros c. repeat case_match; naive_solver.
  - intros e Hthrow Hv. destruct (getPriorityClass_primitive v Hv) as [c Hc]. congruence.
  - intros members Hnone. cbn. by rewrite Hnone.
  - done.
  - by intros [].
Qed.

(** ** The timer of the toggle *)

(** X15. The follow-up of a toggle runs once.  After the POST is answered,
    the timer that [toggleAgent] registered sits at the end of the timers;
    when it fires it asks for the status once and is gone, the timers being
    again those from before the toggle; should the same timer number fire
    again, nothing happens. *)
Theorem toggle_follow_up_fires_once (st : state) (r : response) :
  r ≠ Rejected →
  let i := length (timers st) in
  let st1 := (toggleAgent_resume r st).2 in
  let st2 := (fire i st1).2 in
  timers st1 !! i = Some {| callback := FetchStatus; delay := 500; repeating := false |}
  ∧ fire i st1 = (Ok tt, st2)
  ∧ timers st2 = timers st
  ∧ fetches st2 = fetches st ++ [(FetchStatus,
      {| method := GET; url := "http://localhost:8000/control/status" |})]
  ∧ document st2 = document st
  ∧ currentState st2 = currentState st
  ∧ console st2 = console st
  ∧ fire i st2 = (Ok tt, st2).
Proof.
  intros Hr.
  assert (toggleAgent_resume r st
          = (Ok tt, set_timers (fun l => l ++ [{| callback := FetchStatus; delay := 500;
                                                 repeating := false |}]) st)) as ->
    by by destruct r.
  assert (∀ (x : timer) l, delete (length l) (l ++ [x]) = l) as Hdelete.
  { intros x l. induction l as [|y l IH]; [done|]. cbn. f_equal. exact IH. }
  cbn zeta. cbn [snd]. unfold fire.
  cbn [timers set_timers]. rewrite lookup_app_r, Nat.sub_diag by done.
  cbn [lookup list_lookup repeating callback start fetchStatus_start fetch snd
       timers set_timers fetches set_fetches document currentState console].
  rewrite Hdelete, lookup_ge_None_2 by done.
  by destruct st.
Qed.

(** ** Polling the status *)

Lemma token_add_idemp (c : string) (l : list string) :
  token_add c (token_add c l) = token_add c l.
Proof.
  unfold token_add at 1. rewrite decide_True; [done|].
  apply elem_of_token_add. by left.
Qed.

Lemma token_remove_idemp (c : string) (l : list string) :
  token_remove c (token_remove c l) = token_remove c l.
Proof.
  unfold token_remove. induction l as [|x l IH]; [done|].
  rewrite (filter_cons _ x l). case_decide as Hx; [|done].
  by rewrite filter_cons, decide_True, IH.
Qed.

Lemma token_replace_idemp (old new : string) (l : list string) :
  old ≠ new → token_replace old new (token_replace old new l) = token_replace old new l.
Proof.
  intros Hne. unfold token_replace at 1.
  rewrite decide_False; [done|]. by apply not_elem_of_token_replace.
Qed.

Ltac lookup_alters :=
  repeat first [ rewrite list_lookup_alter_eq
               | rewrite list_lookup_alter_ne by congruence ].

Ltac same_element doc k :=
  lookup_alters; destruct (doc !! k) as [[]|]; [|done];
  cbn -[token_add token_remove token_replace];
  unfold with_textContent, with_classList;
  cbn -[token_add token_remove token_replace];
  rewrite ?token_add_idemp, ?token_remove_idemp, ?token_replace_idemp by done;
  done.

Ltac by_element doc text button indicator stat :=
  apply list_eq; intros k;
  destruct (decide (k = stat)) as [->|];
    [same_element doc stat|];
  destruct (decide (k = button)) as [->|];
    [same_element doc button|];
  destruct (decide (k = indicator)) as [->|];
    [same_element doc indicator|];
  destruct (decide (k = text)) as [->|];
    [same_element doc text|];
  by lookup_alters.

Lemma shown_running_idemp (text button indicator stat : handle) (up : string)
    (doc : list element) :
  text ≠ button → text ≠ indicator → text ≠ stat → button ≠ indicator →
  button ≠ stat → indicator ≠ stat →
  shown_running text button indicator stat up
    (shown_running text button indicator stat up doc)
  = shown_running text button indicator stat up doc.
Proof.
  intros. unfold shown_running. by_element doc text button indicator stat.
Qed.

Lemma shown_stopped_idemp (text button indicator stat : handle) (up : string)
    (doc : list element) :
  text ≠ button → text ≠ indicator → text ≠ stat → button ≠ indicator →
  button ≠ stat → indicator ≠ stat →
  shown_stopped text button indicator stat up
    (shown_stopped text button indicator stat up doc)
  = shown_stopped text button indicator stat up doc.
Proof.
  intros. unfold shown_stopped. by_element doc text button indicator stat.
Qed.

Lemma shown_stopped_half_idemp (text button indicator stat : handle) (up : string)
    (doc : list element) :
  text ≠ button → text ≠ indicator → text ≠ stat → button ≠ indicator →
  button ≠ stat → indicator ≠ stat →
  shown_stopped text button indicator stat up
    (half_stopped text button indicator
       (shown_stopped text button indicator stat up
          (half_stopped text button indicator doc)))
  = shown_stopped text button indicator stat up
      (half_stopped text button indicator doc).
Proof.
  intros. unfold shown_stopped, half_stopped.
  by_element doc text button indicator stat.
Qed.

(** What a status answer does to the page and to the flag depends on the
    answer alone: the page goes through one of three changes, and the flag is
    set to a value the answer fixes. *)
Lemma fetchStatus_resume_exact (E : bindings) (r : response)
    (text button indicator stat : handle) :
  statusText E = Some text → toggleBtn E = Some button →
  statusIndicator E = Some indicator →
  ∃ (change : list element → list element) (flag : value),
    ((∃ up, change = shown_running text button indicator stat up)
     ∨ (∃ up, change = shown_stopped text button indicator stat up)
     ∨ change = (fun doc => shown_stopped text button indicator stat "0s"
                              (half_stopped text button indicator doc)))
    ∧ ∀ st, find_id "stat-uptime" (document st) = Some stat →
        document (fetchStatus_resume E r st).2 = change (document st)
        ∧ currentState (fetchStatus_resume E r st).2
          = {| isRunning := flag; stats := stats (currentState st);
               emails := emails (currentState st); logs := logs (currentState st) |}.
Proof.
  intros Htext Hbutton Hindicator.
  assert (∀ e, ∃ (change : list element → list element) (flag : value),
            ((∃ up, change = shown_running text button indicator stat up)
             ∨ (∃ up, change = shown_stopped text button indicator stat up)
             ∨ change = (fun doc => shown_stopped text button indicator stat "0s"
                                      (half_stopped text button indicator doc)))
            ∧ ∀ st, find_id "stat-uptime" (document st) = Some stat →
                (data ← awaited_json r;
                 is_running ← lift (get data "is_running");
                 uptime ← lift (get data "uptime");
                 updateStatus E is_running uptime) st = (Throw e, st) →
                document (fetchStatus_resume E r st).2 = change (document st)
                ∧ currentState (fetchStatus_resume E r st).2
                  = {| isRunning := flag; stats := stats (currentState st);
                       emails := emails (currentState st);
                       logs := logs (currentState st) |}) as Hearly.
  { intros e. exists (shown_stopped text button indicator stat "0s"), (Bool false).
    split; [right; left; by eexists|].
    intros st Hstat Hbody. unfold fetchStatus_resume.
    rewrite (try_catch_Throw _ _ _ _ _ Hbody).
    by rewrite (fetchStatus_handler E st e text button indicator stat). }
  assert (∀ running uptime,
            ∃ (change : list element → list element) (flag : value),
            ((∃ up, change = shown_running text button indicator stat up)
             ∨ (∃ up, change = shown_stopped text button indicator stat up)
             ∨ change = (fun doc => shown_stopped text button indicator stat "0s"
                                      (half_stopped text button indicator doc)))
            ∧ ∀ st, find_id "stat-uptime" (document st) = Some stat →
                document (try_catch (updateStatus E running uptime)
                            (fun e => console_error "Status fetch failed" e;;
                                      updateStatus E (Bool false) (Num (Int 0))) st).2
                = change (document st)
                ∧ currentState (try_catch (updateStatus E running uptime)
                            (fun e => console_error "Status fetch failed" e;;
                                      updateStatus E (Bool false) (Num (Int 0))) st).2
                  = {| isRunning := flag; stats := stats (currentState st);
                       emails := emails (currentState st);
                       logs := logs (currentState st) |}) as Hlate.
  { intros running uptime.
    destruct (formatUptime uptime) as [up|e] eqn:Hup.
    - destruct (ToBoolean running) eqn:Hrunning.
      + exists (shown_running text button indicator stat up), running.
        split; [left; by eexists|]. intros st Hstat.
        by rewrite (try_catch_Ok _ _ _ _ _
          (updateStatus_running E st running uptime text button indicator stat up
             Htext Hbutton Hindicator Hstat Hrunning Hup)).
      + exists (shown_stopped text button indicator stat up), running.
        split; [right; left; by eexists|]. intros st Hstat.
        by rewrite (try_catch_Ok _ _ _ _ _
          (updateStatus_stopped E st running uptime text button indicator stat up
             Htext Hbutton Hindicator Hstat Hrunning Hup)).
    - destruct (ToBoolean running) eqn:Hrunning.
      + exists (shown_stopped text button indicator stat "0s"), (Bool false).
        split; [right; left; by eexists|]. intros st Hstat.
        rewrite (try_catch_Throw _ _ _ _ _
          (updateStatus_throws E st running uptime text button indicator e
             Htext Hbutton Hindicator Hup)).
        rewrite Hrunning.
        by rewrite (fetchStatus_handler E _ e text button indicator stat).
      + exists (fun doc => shown_stopped text button indicator stat "0s"
                             (half_stopped text button indicator doc)), (Bool false).
        split; [by right; right|]. intros st Hstat.
        rewrite (try_catch_Throw _ _ _ _ _
          (updateStatus_throws E st running uptime text button indicator e
             Htext Hbutton Hindicator Hup)).
        rewrite Hrunning.
        rewrite (fetchStatus_handler E _ e text button indicator stat); try done.
        cbn. unfold half_stopped. by rewrite !find_id_alter by auto with keeps. }
  destruct r as [| |data].
  - destruct (Hearly NetworkError) as (change & flag & Hshape & Hrun).
    exists change, flag. split; [done|]. intros st Hstat. by apply Hrun.
  - destruct (Hearly SyntaxError) as (change & flag & Hshape & Hrun).
    exists change, flag. split; [done|]. intros st Hstat. by apply Hrun.
  - destruct data as [| | | | | |members];
      try (destruct (Hearly TypeError) as (change & flag & Hshape & Hrun);
           exists change, flag; split; [done|]; intros st Hstat; by apply Hrun);
      apply Hlate.
Qed.

(** X16. Polling settles at once.  On a page that has the four elements, a
    status answer handled a second time changes neither the page nor the
    cache: no class is added twice, no text changes; only the console may
    get one more line. *)
Theorem status_polling_is_idempotent (st : state) (r : response)
    (text button indicator stat : handle) :
  status_elements (document st) text button indicator stat →
  let st1 := (fetchStatus_resume (bind_constants (document st)) r st).2 in
  let st2 := (fetchStatus_resume (bind_constants (document st)) r st1).2 in
  document st2 = document st1 ∧ currentState st2 = currentState st1.
Proof.
  intros Hel st1 st2.
  destruct (status_elements_distinct _ _ _ _ _ Hel)
    as (_ & _ & _ & _ & ? & ? & ? & ? & ? & ?).
  destruct (fetchStatus_resume_outcome st r text button indicator stat Hel)
    as (st1' & Hrun1 & Hsk1 & Hf1 & Ht1 & _).
  assert (st1' = st1) as -> by (unfold st1; by rewrite Hrun1).
  pose proof Hel as (Htext & Hbutton & Hindicator & Hstat).
  assert (find_id "stat-uptime" (document st1) = Some stat) as Hstat1
    by by rewrite (find_id_skeleton _ _ _ Hsk1).
  destruct (fetchStatus_resume_exact (bind_constants (document st)) r
              text button indicator stat Htext Hbutton Hindicator)
    as (change & flag & Hshape & Hchange).
  destruct (Hchange st Hstat) as [Hdoc1 Hcache1].
  destruct (Hchange st1 Hstat1) as [Hdoc2 Hcache2].
  fold st1 in Hdoc1, Hcache1. fold st2 in Hdoc2, Hcache2.
  split.
  - rewrite Hdoc2, Hdoc1.
    destruct Hshape as [[up ->]|[[up ->]| ->]].
    + by apply shown_running_idemp.
    + by apply shown_stopped_idemp.
    + by apply shown_stopped_half_idemp.
  - rewrite Hcache2, Hcache1. done.
Qed.

(** ** The counters, further *)

(** X18. [fetchStats] is not all or nothing.  On a page that has the first
    counter and lacks the second, an answer that is an object sets the first
    counter, then fails on the second: the exception is caught, one line goes
    to the console, and the first counter keeps its new text. *)
Theorem fetchStats_stops_at_missing_counter (st : state)
    (members : list (string * value)) (stat_emails : handle) :
  find_id "stat-emails" (document st) = Some stat_emails →
  find_id "stat-actions" (document st) = None →
  primitive (member members "total_emails") →
  ∃ st' total_emails e,
    fetchStats_resume (Json (Obj members)) st = (Ok tt, st')
    ∧ nullable_text (member members "total_emails") = Ok total_emails
    ∧ document st' = alter (with_textContent total_emails) stat_emails (document st)
    ∧ textContent <$> document st' !! stat_emails = Some total_emails
    ∧ console st' = console st ++ [("Stats fetch failed", e)].
Proof.
  intros He Ha Hprimitive.
  assert (∃ s, nullable_text (member members "total_emails") = Ok s) as [a Hsa].
  { unfold nullable_text. destruct (ToString_primitive _ Hprimitive) as [s Hs].
    destruct (member members "total_emails"); eauto. }
  assert (∃ e, (data ← awaited_json (Json (Obj members));
                stat_emails ← getElementById "stat-emails";
                lift (get data "total_emails") ≫= assign_textContent stat_emails;;
                stat_actions ← getElementById "stat-actions";
                lift (get data "total_actions") ≫= assign_textContent stat_actions;;
                stat_retries ← getElementById "stat-retries";
                lift (get data "pending_retries") ≫= assign_textContent stat_retries) st
               = (Throw e, set_document (alter (with_textContent a) stat_emails) st))
    as [e Hbody].
  { unfold nullable_text, member in Hsa.
    unfold mbind, M_bind, getElementById, assign_textContent, lift, get.
    cbn [awaited_json mret M_ret document]. rewrite He.
    unfold mbind, M_bind. rewrite Hsa.
    destruct (default Undefined (own_property "total_actions" members)) as [| | | | |l|ms];
      cbn -[ToString]; rewrite find_id_alter, Ha by auto with keeps;
      try (by eexists);
      [destruct (ToString (Arr l))|destruct (ToString (Obj ms))]; by eexists. }
  exists (set_console (fun l => l ++ [("Stats fetch failed", e)])
            (set_document (alter (with_textContent a) stat_emails) st)), a, e.
  split_and!; try done.
  - unfold fetchStats_resume. by rewrite (try_catch_Throw _ _ _ _ _ Hbody).
  - cbn. destruct (lookup_lt_is_Some_2 _ _ (find_id_lt _ _ _ He)) as [x Hx].
    by rewrite list_lookup_alter_eq, Hx.
Qed.

(** ** Answers in any order *)



End Properties.

(** * The theorems at work on the sample page *)

Section Instances.

#[local] Existing Instance sample_runtime.

Lemma primitive_members (members : list (string * value)) :
  Forall (fun kv => primitive kv.2) members →
  ∀ k v, own_property k members = Some v → primitive v.
Proof.
  intros Hall k v. induction Hall as [|[k' v'] members Hv Hall IH]; [done|].
  cbn. destruct (own_property k members) as [w|]; [intros [= ->]; by apply IH|].
  case_match; [|done]. by intros [= ->].
Qed.


Lemma renderEmails_empty_witness :
  find_id "emails-table-body" (document (loaded sample_page)) = Some 14
  ∧ renderEmails (Arr []) (loaded sample_page)
    = (Ok tt, set_document (alter (with_innerHTML "") 14) (loaded sample_page))
  ∧ innerHTML <$> document (renderEmails (Arr []) (loaded sample_page)).2 !! 14 = Some "".
Proof.
  split; [reflexivity|].
  apply (renderEmails_empty (loaded sample_page) 14). reflexivity.
Defined.


Lemma fetchEmails_witness :
  find_id "emails-table-body" (document running_state) = Some 14
  ∧ (∃ row, mapM renderEmailRow [Obj sample_email] = Ok [row]
            ∧ fetchEmails_start [] running_state
              = (Ok tt,
                 set_fetches (fun l => l ++ [(FetchEmails,
                   {| method := GET; url := "http://localhost:8000/emails?limit=50" |})])
                   running_state)
            ∧ fetchEmails_resume (Json (Arr [Obj sample_email])) running_state
              = (Ok tt,
                 set_document (alter (with_innerHTML (String.concat "" [row])) 14)
                   running_state)
            ∧ innerHTML <$>
                document (fetchEmails_resume (Json (Arr [Obj sample_email]))
                            running_state).2 !! 14
              = Some (String.concat "" [row])).
Proof.
  split; [reflexivity|].
  destruct (mapM renderEmailRow [Obj sample_email]) as [[|row []]|] eqn:Hrows;
    try (vm_compute in Hrows; discriminate).
  exists row. split; [reflexivity|].
  apply (fetchEmails_replaces_table running_state [] [Obj sample_email] [row] 14);
    [reflexivity|exact Hrows].
Defined.

Lemma renderEmailRow_witness :
  own_property "subject" sample_email = Some (Str "Quarterly report")
  ∧ (∀ k v, own_property k sample_email = Some v → primitive v)
  ∧ (∃ id sender class label task_status next_action,
       renderEmailRow (Obj sample_email) =
         Ok (line 8 "<tr>"
             +:+ line 12 "<td>#" +:+ id +:+ "</td>"
             +:+ line 12 "<td>" +:+ substring 0 40 "Quarterly report" +:+ "...</td>"
             +:+ line 12 "<td>" +:+ sender +:+ "</td>"
             +:+ line 12 "<td><span class=" +:+ dquote +:+ "tag " +:+ class +:+ dquote
             +:+ ">" +:+ label +:+ "</span></td>"
             +:+ line 12 "<td>" +:+ task_status +:+ "</td>"
             +:+ line 12 "<td>" +:+ next_action +:+ "</td>"
             +:+ line 8 "</tr>"
             +:+ line 4 ""))
  ∧ ((String.length "Quarterly report" ≤ 40)%nat
     → substring 0 40 "Quarterly report" = "Quarterly report")
  ∧ ((40 ≤ String.length "Quarterly report")%nat
     → String.length (substring 0 40 "Quarterly report") = 40%nat
       ∧ String.prefix (substring 0 40 "Quarterly report") "Quarterly report" = true).
Proof.
  assert (∀ k v, own_property k sample_email = Some v → primitive v) as Hall.
  { apply primitive_members. repeat constructor. }
  split; [reflexivity|]. split; [exact Hall|].
  apply (renderEmailRow_subject sample_email "Quarterly report"); [reflexivity|exact Hall].
Defined.

(** C7, as stated, fails: called with the limit 10, [fetchEmails] still asks
    for 50 emails. *)
Lemma fetchEmails_ignores_its_argument :
  fetches (fetchEmails_start [Num (Int 10)] (loaded sample_page)).2
  = [(FetchEmails, {| method := GET; url := "http://localhost:8000/emails?limit=50" |})]
  ∧ fetches (fetchEmails_start [Num (Int 10)] (loaded sample_page)).2
    ≠ [(FetchEmails, {| method := GET; url := "http://localhost:8000/emails?limit=10" |})].
Proof. split; [reflexivity|discriminate]. Qed.

(** C8, as stated, fails: when the POST gets no answer, [toggleAgent]
    registers no timer; it writes to the console and returns. *)
Lemma toggleAgent_rejected_no_follow_up :
  (toggleAgent_start;; toggleAgent_resume Rejected) (loaded sample_page)
  = (Ok tt,
     {| document := sample_page;
        currentState := currentState (loaded sample_page);
        fetches := [(ToggleAgent,
                     {| method := POST; url := "http://localhost:8000/control/start" |})];
        timers := [];
        console := [("Toggle failed", NetworkError)] |})
  ∧ timers ((toggleAgent_start;; toggleAgent_resume Rejected) (loaded sample_page)).2
    ≠ [{| callback := FetchStatus; delay := 500; repeating := false |}].
Proof. split; [reflexivity|discriminate]. Qed.

(** ** Instances of the further properties *)

Lemma formatUptime_integer_witness :
  90061%Z ≠ 0%Z
  ∧ (Z.abs 90061 <= 2 ^ 53)%Z
  ∧ (formatUptime (Num (Int 90061))
     = Ok (string_of_Z (90061 / 3600) +:+ "h " +:+ string_of_Z (Z.rem 90061 3600 / 60)
           +:+ "m " +:+ string_of_Z (Z.rem 90061 60) +:+ "s")
     ∧ ((0 < 90061)%Z →
          90061%Z = (3600 * (90061 / 3600) + 60 * (Z.rem 90061 3600 / 60)
                     + Z.rem 90061 60)%Z
          ∧ (0 <= 90061 / 3600)%Z
          ∧ (0 <= Z.rem 90061 3600 / 60 < 60)%Z
          ∧ (0 <= Z.rem 90061 60 < 60)%Z)
     ∧ ((90061 < 0)%Z → (90061 / 3600 < 0)%Z ∧ (Z.rem 90061 60 <= 0)%Z)).
Proof.
  split; [lia|]. split; [lia|].
  apply (formatUptime_integer 90061); lia.
Defined.



Lemma fetchStatus_throws_on_missing_element_witness :
  (¬ ∃ text button indicator stat,
       status_elements (document (loaded partial_page)) text button indicator stat)
  ∧ ∃ st' e,
      fetchStatus_resume (bind_constants (document (loaded partial_page)))
        (Json (Obj [("is_running", Bool true); ("uptime", Num (Int 5))]))
        (loaded partial_page) = (Throw TypeError, st')
      ∧ isRunning (currentState st') = Bool false
      ∧ console st' = console (loaded partial_page) ++ [("Status fetch failed", e)].
Proof.
  assert (¬ ∃ text button indicator stat,
              status_elements (document (loaded partial_page)) text button indicator stat)
    as Hmissing.
  { intros (text & button & indicator & stat & Htext & _).
    vm_compute in Htext. discriminate. }
  split; [exact Hmissing|].
  apply (fetchStatus_throws_on_missing_element (loaded partial_page)
           (Json (Obj [("is_running", Bool true); ("uptime", Num (Int 5))]))).
  exact Hmissing.
Defined.

Lemma renderEmailRow_tag_witness :
  own_property "subject" [("id", Num (Int 8)); ("subject", Str "Hello")]
  = Some (Str "Hello")
  ∧ (∀ k v, own_property k [("id", Num (Int 8)); ("subject", Str "Hello")] = Some v →
       primitive v)
  ∧ ∃ id sender class label task_status next_action,
      renderEmailRow (Obj [("id", Num (Int 8)); ("subject", Str "Hello")]) =
        Ok (line 8 "<tr>"
            +:+ line 12 "<td>#" +:+ id +:+ "</td>"
            +:+ line 12 "<td>" +:+ substring 0 40 "Hello" +:+ "...</td>"
            +:+ line 12 "<td>" +:+ sender +:+ "</td>"
            +:+ line 12 "<td><span class=" +:+ dquote +:+ "tag " +:+ class +:+ dquote
            +:+ ">" +:+ label +:+ "</span></td>"
            +:+ line 12 "<td>" +:+ task_status +:+ "</td>"
            +:+ line 12 "<td>" +:+ next_action +:+ "</td>"
            +:+ line 8 "</tr>"
            +:+ line 4 "")
      ∧ getPriorityClass
          (member [("id", Num (Int 8)); ("subject", Str "Hello")] "priority_score")
        = Ok class
      ∧ (class = "high" ∨ class = "medium" ∨ class = "low")
      ∧ (ToBoolean (member [("id", Num (Int 8)); ("subject", Str "Hello")]
                      "priority_label") = false → label = "Unknown")
      ∧ (ToBoolean (member [("id", Num (Int 8)); ("subject", Str "Hello")]
                      "priority_label") = true →
           ToString (member [("id", Num (Int 8)); ("subject", Str "Hello")]
                       "priority_label") = Ok label)
      ∧ (own_property "priority_label" [("id", Num (Int 8)); ("subject", Str "Hello")]
         = None → label = "Unknown")
      ∧ (own_property "priority_score" [("id", Num (Int 8)); ("subject", Str "Hello")]
         = None → class = "low").
Proof.
  assert (∀ k v, own_property k [("id", Num (Int 8)); ("subject", Str "Hello")] = Some v →
            primitive v) as Hall.
  { apply primitive_members. repeat constructor. }
  split; [reflexivity|]. split; [exact Hall|].
  apply (renderEmailRow_tag [("id", Num (Int 8)); ("subject", Str "Hello")] "Hello");
    [reflexivity|exact Hall].
Defined.


Lemma nav_click_dangling_target_witness :
  (0 ∈ navItems (bind_constants (document (loaded partial_page))))
  ∧ (0 ∉ pages (bind_constants (document (loaded partial_page))))
  ∧ document (loaded partial_page) !! 0
    = Some {| elem_id := ""; nav_li := true; dataset_target := None; classList := [];
              textContent := "Settings"; innerHTML := "" |}
  ∧ find_id (default "undefined" None) (document (loaded partial_page)) = None
  ∧ ∃ st',
      nav_click (bind_constants (document (loaded partial_page))) 0 (loaded partial_page)
      = (Throw TypeError, st')
      ∧ active (document st') (navItems (bind_constants (document (loaded partial_page))))
        = [0]
      ∧ active (document st') (pages (bind_constants (document (loaded partial_page))))
        = []
      ∧ (∀ h, textContent <$> document st' !! h
              = textContent <$> document (loaded partial_page) !! h)
      ∧ fetches st' = fetches (loaded partial_page).
Proof.
  assert (0 ∈ navItems (bind_constants (document (loaded partial_page)))) as Hitem
    by (apply (bool_decide_unpack _); vm_compute; exact I).
  assert (0 ∉ pages (bind_constants (document (loaded partial_page)))) as Hnot_page
    by (apply (bool_decide_unpack _); vm_compute; exact I).
  split; [exact Hitem|]. split; [exact Hnot_page|].
  split; [reflexivity|]. split; [reflexivity|].
  apply (nav_click_dangling_target (loaded partial_page) 0
           {| elem_id := ""; nav_li := true; dataset_target := None; classList := [];
              textContent := "Settings"; innerHTML := "" |});
    [exact Hitem|exact Hnot_page|reflexivity|reflexivity].
Defined.

Lemma nav_click_fetches_witness :
  document (loaded sample_page) !! 1 = Some (nav_item "emails" "Emails" [])
  ∧ find_id (default "undefined" (dataset_target (nav_item "emails" "Emails" [])))
      (document (loaded sample_page)) = Some 13
  ∧ pageTitle (bind_constants sample_page) = Some 3
  ∧ ∃ st',
      nav_click (bind_constants sample_page) 1 (loaded sample_page) = (Ok tt, st')
      ∧ (dataset_target (nav_item "emails" "Emails" []) = Some "emails" →
           fetches st' = fetches (loaded sample_page) ++ [(FetchEmails,
             {| method := GET; url := "http://localhost:8000/emails?limit=50" |})])
      ∧ (dataset_target (nav_item "emails" "Emails" []) = Some "logs" →
           fetches st' = fetches (loaded sample_page) ++ [(FetchLogs,
             {| method := GET; url := "http://localhost:8000/logs?limit=50" |})])
      ∧ (dataset_target (nav_item "emails" "Emails" []) ≠ Some "emails" →
         dataset_target (nav_item "emails" "Emails" []) ≠ Some "logs" →
           fetches st' = fetches (loaded sample_page))
      ∧ timers st' = timers (loaded sample_page)
      ∧ console st' = console (loaded sample_page).
Proof.
  split; [reflexivity|]. split; [reflexivity|]. split; [reflexivity|].
  apply (nav_click_fetches (bind_constants sample_page) (loaded sample_page) 1 13 3
           (nav_item "emails" "Emails" [])); reflexivity.
Defined.

Lemma toggle_follow_up_fires_once_witness :
  NotJson ≠ Rejected
  ∧ let i := length (timers running_state) in
    let st1 := (toggleAgent_resume NotJson running_state).2 in
    let st2 := (fire i st1).2 in
    timers st1 !! i
    = Some {| callback := FetchStatus; delay := 500; repeating := false |}
    ∧ fire i st1 = (Ok tt, st2)
    ∧ timers st2 = timers running_state
    ∧ fetches st2 = fetches running_state ++ [(FetchStatus,
        {| method := GET; url := "http://localhost:8000/control/status" |})]
    ∧ document st2 = document running_state
    ∧ currentState st2 = currentState running_state
    ∧ console st2 = console running_state
    ∧ fire i st2 = (Ok tt, st2).
Proof.
  split; [discriminate|].
  apply (toggle_follow_up_fires_once running_state NotJson). discriminate.
Defined.

Lemma status_polling_is_idempotent_witness :
  status_elements (document running_state) 5 6 4 12
  ∧ let st1 := (fetchStatus_resume (bind_constants (document running_state))
                  (Json (Obj [("is_running", Bool true); ("uptime", Num (Int 3662))]))
                  running_state).2 in
    let st2 := (fetchStatus_resume (bind_constants (document running_state))
                  (Json (Obj [("is_running", Bool true); ("uptime", Num (Int 3662))]))
                  st1).2 in
    document st2 = document st1 ∧ currentState st2 = currentState st1.
Proof.
  split; [by split_and!|].
  apply (status_polling_is_idempotent running_state
           (Json (Obj [("is_running", Bool true); ("uptime", Num (Int 3662))])) 5 6 4 12).
  by split_and!.
Defined.

Lemma fetchStats_stops_at_missing_counter_witness :
  find_id "stat-emails" (document (loaded partial_page)) = Some 1
  ∧ find_id "stat-actions" (document (loaded partial_page)) = None
  ∧ primitive (member [("total_emails", Num (Int 12))] "total_emails")
  ∧ ∃ st' total_emails e,
      fetchStats_resume (Json (Obj [("total_emails", Num (Int 12))])) (loaded partial_page)
      = (Ok tt, st')
      ∧ nullable_text (member [("total_emails", Num (Int 12))] "total_emails")
        = Ok total_emails
      ∧ document st'
        = alter (with_textContent total_emails) 1 (document (loaded partial_page))
      ∧ textContent <$> document st' !! 1 = Some total_emails
      ∧ console st' = console (loaded partial_page) ++ [("Stats fetch failed", e)].
Proof.
  split; [reflexivity|]. split; [reflexivity|]. split; [exact I|].
  apply (fetchStats_stops_at_missing_counter (loaded partial_page)
           [("total_emails", Num (Int 12))] 1); [reflexivity|reflexivity|exact I].
Defined.

End Instances.
